(** * Shallow embedding of telethon/client/chats.py

    The chat-action controller ([_ChatAction], [ChatMethods.action]), the
    participants enumeration strategy ([_ParticipantsIter]) and the admin-log
    enumeration strategy ([_AdminLogIter]).  Python exceptions are the
    [Err] case of [result]; mutable iterator objects are explicit state that
    is returned also when an exception escapes, as Python keeps the
    mutations made before the raise. *)

From Stdlib Require Import ZArith Lia Bool List String Ascii.
From stdpp Require Import base gmap sets list strings.
Import ListNotations.
Open Scope Z_scope.

(** ** Python runtime *)

Inductive exn :=
  | AttributeError
  | KeyError
  | ValueError
  | ZeroDivisionError
  | OverflowError
  | StopAsyncIteration
  | CancelledError
  | ConnectionError
  | RPCError.

Definition exn_eqb (a b : exn) : bool :=
  match a, b with
  | AttributeError, AttributeError | KeyError, KeyError
  | ValueError, ValueError | ZeroDivisionError, ZeroDivisionError
  | OverflowError, OverflowError
  | StopAsyncIteration, StopAsyncIteration
  | CancelledError, CancelledError | ConnectionError, ConnectionError
  | RPCError, RPCError => true
  | _, _ => false
  end.

Inductive result (A : Type) :=
  | Ok (a : A)
  | Err (e : exn).
Arguments Ok {A} a.
Arguments Err {A} e.

(** [str.lower()] on ASCII text. *)
Definition ascii_lower (c : ascii) : ascii :=
  let n := nat_of_ascii c in
  if (65 <=? n)%nat && (n <=? 90)%nat then ascii_of_nat (n + 32) else c.

Fixpoint py_lower (s : string) : string :=
  match s with
  | EmptyString => EmptyString
  | String c t => String (ascii_lower c) (py_lower t)
  end.

(** [needle in hay] for strings. *)
Fixpoint py_contains (needle hay : string) : bool :=
  String.prefix needle hay ||
  match hay with
  | EmptyString => false
  | String _ t => py_contains needle t
  end.

(** A Python string iterated symbol by symbol: [for x in s]. *)
Fixpoint py_chars (s : string) : list string :=
  match s with
  | EmptyString => []
  | String c t => String c EmptyString :: py_chars t
  end.

Definition py_truthy_str (s : string) : bool :=
  match s with EmptyString => false | _ => true end.

(** Rounding of the non-negative rational [n / d] ([d > 0]) to an integer,
    half to even. *)
Definition rne (n d : Z) : Z :=
  let q := n / d in
  let r := n mod d in
  if 2 * r <? d then q
  else if d <? 2 * r then q + 1
  else if Z.even q then q else q + 1.

(** [a / (b * 2^e)] as a numerator and a denominator. *)
Definition scaled (a b e : Z) : Z * Z :=
  if 0 <=? e then (a, b * 2 ^ e) else (a * 2 ^ (- e), b).

(** A binary64 float [(-1)^neg * m * 2^e]. *)
Record py_float := mkFloat { fl_neg : bool; fl_mant : Z; fl_exp : Z }.

(** Python's true division [p / q] of two [int]s: the exact quotient
    rounded once, to nearest with ties to even, to a binary64 float
    (53-bit significand, least exponent [-1074]); [ZeroDivisionError] for
    [q = 0] and [OverflowError] when the rounded quotient reaches
    [2^1024]. *)
Definition py_true_div (p q : Z) : result py_float :=
  if q =? 0 then Err ZeroDivisionError else
  let neg := xorb (p <? 0) (q <? 0) in
  let a := Z.abs p in
  let b := Z.abs q in
  if a =? 0 then Ok (mkFloat neg 0 0) else
  let e0 := Z.log2 a - Z.log2 b - 52 in
  let e1 := let '(n, d) := scaled a b e0 in
            if n <? 2 ^ 52 * d then e0 - 1 else e0 in
  let e := Z.max e1 (-1074) in
  let '(n, d) := scaled a b e in
  let m := rne n d in
  if (0 <=? e) && (2 ^ 1024 <=? m * 2 ^ e) then Err OverflowError
  else Ok (mkFloat neg m e).

(** [round(x)] of a float, half to even, as an [int]. *)
Definition py_round_float (x : py_float) : Z :=
  let r := if 0 <=? fl_exp x then fl_mant x * 2 ^ fl_exp x
           else rne (fl_mant x) (2 ^ (- fl_exp x)) in
  if fl_neg x then - r else r.

(** [round(p / q)] on two [int]s. *)
Definition py_round_div (p q : Z) : result Z :=
  match py_true_div p q with
  | Ok x => Ok (py_round_float x)
  | Err e => Err e
  end.

(** ** TL objects used by chats.py *)

(** [SendMessageAction] constructors; the upload variants carry [progress]. *)
Inductive SendMessageAction :=
  | SendMessageTypingAction
  | SendMessageChooseContactAction
  | SendMessageGamePlayAction
  | SendMessageGeoLocationAction
  | SendMessageRecordAudioAction
  | SendMessageRecordRoundAction
  | SendMessageRecordVideoAction
  | SendMessageUploadAudioAction (progress : Z)
  | SendMessageUploadRoundAction (progress : Z)
  | SendMessageUploadVideoAction (progress : Z)
  | SendMessageUploadPhotoAction (progress : Z)
  | SendMessageUploadDocumentAction (progress : Z)
  | SendMessageCancelAction.

(** [hasattr(action, 'progress')] *)
Definition has_progress (a : SendMessageAction) : bool :=
  match a with
  | SendMessageUploadAudioAction _ | SendMessageUploadRoundAction _
  | SendMessageUploadVideoAction _ | SendMessageUploadPhotoAction _
  | SendMessageUploadDocumentAction _ => true
  | _ => false
  end.


(** [action.progress = p] *)
Definition set_progress (a : SendMessageAction) (p : Z) : SendMessageAction :=
  match a with
  | SendMessageUploadAudioAction _ => SendMessageUploadAudioAction p
  | SendMessageUploadRoundAction _ => SendMessageUploadRoundAction p
  | SendMessageUploadVideoAction _ => SendMessageUploadVideoAction p
  | SendMessageUploadPhotoAction _ => SendMessageUploadPhotoAction p
  | SendMessageUploadDocumentAction _ => SendMessageUploadDocumentAction p
  | a => a
  end.

(** An input peer as returned by [get_input_entity]. *)
Inductive InputPeer :=
  | InputPeerChannel (channel_id : Z)
  | InputPeerChat (chat_id : Z)
  | InputPeerUser (user_id : Z).

(** ** The chat-action controller ([_ChatAction]) *)

(** The state of the background task created by [__aenter__] for
    [_update]: not yet scheduled, suspended at the periodic send, suspended
    at the sleep, or finished with a result. *)
Inductive TaskState :=
  | TaskNotStarted
  | TaskAtSend
  | TaskAtSleep
  | TaskDone (r : result unit).

(** The controller object.  [ca_action] is the one action object that the
    request [SetTypingRequest(chat, action)] refers to: [progress] writes
    into it and every periodic send reads it.  For a controller made from
    a tag it is also that tag's object in [_str_mapping] (see
    [str_mapping_reachable]). *)
Record ChatAction := mkChatAction {
  ca_chat : InputPeer;
  ca_action : SendMessageAction;
  ca_delay : Z;
  ca_auto_cancel : bool;
  ca_running : bool;
  ca_task : option TaskState
}.

Definition ca_set_action (c : ChatAction) (a : SendMessageAction) :=
  mkChatAction (ca_chat c) a (ca_delay c) (ca_auto_cancel c)
    (ca_running c) (ca_task c).

(** [_ChatAction.progress(current, total)]:
    [self._action.progress = 100 * round(current / total)] on [int]
    arguments. *)
Definition progress (c : ChatAction) (current total : Z) : result ChatAction :=
  if has_progress (ca_action c) then
    match py_round_div current total with
    | Ok r => Ok (ca_set_action c (set_progress (ca_action c) (100 * r)))
    | Err e => Err e
    end
  else Ok c.

(** ** Participants: the local text-match predicate *)

(** A user entity: [id], the display name computed by
    [utils.get_display_name], and the [username] attribute ([None] when
    the attribute is missing or holds [None]). *)
Record User := mkUser {
  user_id : Z;
  display_name : string;
  username : option string
}.

(** [self.filter_entity]: either [lambda ent: True] or the search
    predicate built from the lowered search string. *)
Inductive FilterEntity :=
  | FilterAll
  | FilterSearch (search : string).

(** [search in utils.get_display_name(ent).lower() or
     search in (getattr(ent, 'username', '') or None).lower()]:
    [getattr] gives [''] when the attribute is missing, and [x or None]
    turns a falsy username into [None], whose [.lower()] raises
    [AttributeError]. *)
Definition filter_entity_eval (f : FilterEntity) (ent : User) : result bool :=
  match f with
  | FilterAll => Ok true
  | FilterSearch search =>
      if py_contains search (py_lower (display_name ent)) then Ok true
      else
        let uname := match username ent with Some u => u | None => ""%string end in
        if py_truthy_str uname then Ok (py_contains search (py_lower uname))
        else Err AttributeError
  end.

(** ** Participants: requests and server responses *)

(** [ChannelParticipantsFilter] instances. *)
Inductive ParticipantsFilter :=
  | ChannelParticipantsRecent
  | ChannelParticipantsAdmins
  | ChannelParticipantsBots
  | ChannelParticipantsKicked (q : string)
  | ChannelParticipantsBanned (q : string)
  | ChannelParticipantsSearch (q : string)
  | ChannelParticipantsContacts (q : string).

(** The classes a caller may pass instead of an instance. *)
Inductive ParticipantsFilterClass :=
  | ClsRecent | ClsAdmins | ClsBots | ClsKicked | ClsBanned | ClsSearch
  | ClsContacts.

(** The [filter] argument: [None], a class, or an instance. *)
Inductive FilterArg :=
  | FilterNone
  | FilterClass (k : ParticipantsFilterClass)
  | FilterInstance (f : ParticipantsFilter).

(** [if isinstance(filter, type): ... filter = filter('') / filter()] *)
Definition instantiate_filter (f : FilterArg) : option ParticipantsFilter :=
  match f with
  | FilterNone => None
  | FilterInstance f => Some f
  | FilterClass k =>
      Some match k with
           | ClsBanned => ChannelParticipantsBanned ""
           | ClsKicked => ChannelParticipantsKicked ""
           | ClsSearch => ChannelParticipantsSearch ""
           | ClsContacts => ChannelParticipantsContacts ""
           | ClsRecent => ChannelParticipantsRecent
           | ClsAdmins => ChannelParticipantsAdmins
           | ClsBots => ChannelParticipantsBots
           end
  end.

(** [GetParticipantsRequest(channel, filter, offset, limit, hash)] *)
Record GetParticipantsRequest := mkGetParticipants {
  gp_channel : InputPeer;
  gp_filter : ParticipantsFilter;
  gp_offset : Z;
  gp_limit : Z;
  gp_hash : Z
}.

Definition gp_set_limit (r : GetParticipantsRequest) (l : Z) :=
  mkGetParticipants (gp_channel r) (gp_filter r) (gp_offset r) l (gp_hash r).
Definition gp_set_offset (r : GetParticipantsRequest) (o : Z) :=
  mkGetParticipants (gp_channel r) (gp_filter r) o (gp_limit r) (gp_hash r).

(** A [ChannelParticipant]/[ChatParticipant]: only [user_id] is read. *)
Record Participant := mkParticipant { participant_user_id : Z }.

(** [channels.ChannelParticipants]: [.participants] and [.users]. *)
Record ChannelParticipants := mkChannelParticipants {
  cp_participants : list Participant;
  cp_users : list User
}.

(** [full_chat.participants]: [ChatParticipants] or
    [ChatParticipantsForbidden]. *)
Inductive ChatParticipantsObj :=
  | ChatParticipants (participants : list Participant)
  | ChatParticipantsForbidden.

(** [messages.ChatFull]: [.full_chat.participants] and [.users]. *)
Record ChatFull := mkChatFull {
  cf_participants : ChatParticipantsObj;
  cf_users : list User
}.

(** Remote calls, recorded in the order they are issued. *)
Inductive Call :=
  | CallGetFullChannel (ch : InputPeer)
  | CallGetFullChat (chat_id : Z)
  | CallGetEntity (p : InputPeer)
  | CallGetParticipants (reqs : list GetParticipantsRequest)
  | CallSetTyping (p : InputPeer) (a : SendMessageAction).

(** The answers of the remote side, as functions of the request. *)
Record Server := mkServer {
  srv_participants_count : InputPeer -> Z;
  srv_full_chat : Z -> ChatFull;
  srv_get_entity : InputPeer -> User;
  srv_get_participants : GetParticipantsRequest -> ChannelParticipants
}.

(** [RequestIter.limit]: an integer, or infinity for [limit=None]. *)
Inductive Limit := LimFin (n : Z) | LimInf.

Definition lim_le0 (l : Limit) : bool :=
  match l with LimFin n => n <=? 0 | LimInf => false end.
Definition lim_ne0 (l : Limit) : bool :=
  match l with LimFin n => negb (n =? 0) | LimInf => true end.
(** [min(self.limit - offset, cap)] *)
Definition lim_sub_min (l : Limit) (off cap : Z) : Z :=
  match l with LimFin n => Z.min (n - off) cap | LimInf => cap end.
(** [offset > self.limit] *)
Definition lim_lt (l : Limit) (off : Z) : bool :=
  match l with LimFin n => n <? off | LimInf => false end.

(** ** Participants: the iterator object and its monad *)

Record PIter := mkPIter {
  pi_limit : Limit;
  pi_filter_entity : FilterEntity;
  pi_requests : list GetParticipantsRequest;
  pi_total : option Z;
  pi_seen : gset Z;
  pi_buffer : list (User * option Participant);
  pi_calls : list Call
}.

(** Python code over the iterator: mutations survive an exception. *)
Definition PM (A : Type) := PIter -> result A * PIter.

Definition pret {A} (a : A) : PM A := fun s => (Ok a, s).
Definition praise {A} (e : exn) : PM A := fun s => (Err e, s).
Definition pbind {A B} (m : PM A) (k : A -> PM B) : PM B :=
  fun s => match m s with
           | (Ok a, s') => k a s'
           | (Err e, s') => (Err e, s')
           end.
Definition pmodify (f : PIter -> PIter) : PM unit := fun s => (Ok tt, f s).
Definition pget : PM PIter := fun s => (Ok s, s).

Notation "x <-- m ;; k" := (pbind m (fun x => k))
  (at level 100, m at next level, k at level 200, right associativity).
Notation "m ;;; k" := (pbind m (fun _ => k))
  (at level 100, k at level 200, right associativity).

Definition lift {A} (r : result A) : PM A :=
  match r with Ok a => pret a | Err e => praise e end.

Definition set_filter_entity f s :=
  mkPIter (pi_limit s) f (pi_requests s) (pi_total s) (pi_seen s)
    (pi_buffer s) (pi_calls s).
Definition set_requests r s :=
  mkPIter (pi_limit s) (pi_filter_entity s) r (pi_total s) (pi_seen s)
    (pi_buffer s) (pi_calls s).
Definition set_total t s :=
  mkPIter (pi_limit s) (pi_filter_entity s) (pi_requests s) (Some t)
    (pi_seen s) (pi_buffer s) (pi_calls s).
Definition set_seen sn s :=
  mkPIter (pi_limit s) (pi_filter_entity s) (pi_requests s) (pi_total s)
    sn (pi_buffer s) (pi_calls s).
Definition set_buffer b s :=
  mkPIter (pi_limit s) (pi_filter_entity s) (pi_requests s) (pi_total s)
    (pi_seen s) b (pi_calls s).
Definition log_call c s :=
  mkPIter (pi_limit s) (pi_filter_entity s) (pi_requests s) (pi_total s)
    (pi_seen s) (pi_buffer s) (pi_calls s ++ [c]).

Definition buffer_append (x : User * option Participant) : PM unit :=
  pmodify (fun s => set_buffer (pi_buffer s ++ [x]) s).

(** [{user.id: user for user in users}]: later entries win. *)
Definition users_dict (us : list User) : gmap Z User :=
  fold_left (fun m u => <[user_id u := u]> m) us ∅.

(** [users[k]] *)
Definition dict_get (m : gmap Z User) (k : Z) : result User :=
  match m !! k with Some u => Ok u | None => Err KeyError end.

Definition _MAX_PARTICIPANTS_CHUNK_SIZE : Z := 200.
Definition _MAX_ADMIN_LOG_CHUNK_SIZE : Z := 100.
Definition ascii_lowercase : string := "abcdefghijklmnopqrstuvwxyz".

(** A fresh iterator as [RequestIter] hands it to [_init]. *)
Definition piter_new (limit : Limit) : PIter :=
  mkPIter limit FilterAll [] None ∅ [] [].

Definition is_channel (p : InputPeer) : bool :=
  match p with InputPeerChannel _ => true | _ => false end.

(** The body of [for participant in ...] in the small-group branch of
    [_init]. *)
Fixpoint init_chat_participants (users : gmap Z User)
    (ps : list Participant) : PM unit :=
  match ps with
  | [] => pret tt
  | p :: ps' =>
      user <-- lift (dict_get users (participant_user_id p)) ;;
      s <-- pget ;;
      ok <-- lift (filter_entity_eval (pi_filter_entity s) user) ;;
      (if ok then buffer_append (user, Some p) else pret tt) ;;;
      init_chat_participants users ps'
  end.

(** [_ParticipantsIter._init(entity, filter, search, aggressive)]; [entity]
    is the result of [get_input_entity].  Returns the value of [_init]
    ([true] when the buffer is already complete). *)
Definition participants_init (srv : Server) (entity : InputPeer)
    (filter_arg : FilterArg) (search0 : string) (aggressive : bool) : PM bool :=
  let filter := instantiate_filter filter_arg in
  let lowered := py_truthy_str search0 &&
                 (bool_decide (is_Some filter) || negb (is_channel entity)) in
  let search := if lowered then py_lower search0 else search0 in
  pmodify (set_filter_entity
             (if lowered then FilterSearch search else FilterAll)) ;;;
  pmodify (set_requests []) ;;;
  match entity with
  | InputPeerChannel _ =>
      pmodify (log_call (CallGetFullChannel entity)) ;;;
      pmodify (set_total (srv_participants_count srv entity)) ;;;
      s <-- pget ;;
      if lim_le0 (pi_limit s) then praise StopAsyncIteration else
      pmodify (set_seen ∅) ;;;
      (if aggressive && negb (bool_decide (is_Some filter)) then
         pmodify (set_requests
           (map (fun x => mkGetParticipants entity (ChannelParticipantsSearch x)
                            0 _MAX_PARTICIPANTS_CHUNK_SIZE 0)
                (py_chars (if py_truthy_str search then search
                           else ascii_lowercase))))
       else
         pmodify (set_requests
           [mkGetParticipants entity
              (match filter with
               | Some f => f
               | None => ChannelParticipantsSearch search
               end) 0 _MAX_PARTICIPANTS_CHUNK_SIZE 0])) ;;;
      pret false
  | InputPeerChat chat_id =>
      pmodify (log_call (CallGetFullChat chat_id)) ;;;
      let full := srv_full_chat srv chat_id in
      match cf_participants full with
      | ChatParticipantsForbidden =>
          pmodify (set_total 0) ;;; praise StopAsyncIteration
      | ChatParticipants ps =>
          pmodify (set_total (Z.of_nat (length ps))) ;;;
          init_chat_participants (users_dict (cf_users full)) ps ;;;
          pret true
      end
  | InputPeerUser _ =>
      pmodify (set_total 1) ;;;
      s <-- pget ;;
      (if lim_ne0 (pi_limit s) then
         pmodify (log_call (CallGetEntity entity)) ;;;
         let user := srv_get_entity srv entity in
         ok <-- lift (filter_entity_eval (pi_filter_entity s) user) ;;
         if ok then buffer_append (user, None) else pret tt
       else pret tt) ;;;
      pret true
  end.

(** The inner loop of [_load_next_chunk] over one response. *)
Fixpoint chunk_participants (users : gmap Z User)
    (ps : list Participant) : PM unit :=
  match ps with
  | [] => pret tt
  | p :: ps' =>
      user <-- lift (dict_get users (participant_user_id p)) ;;
      s <-- pget ;;
      ok <-- lift (filter_entity_eval (pi_filter_entity s) user) ;;
      (if negb ok || bool_decide (user_id user ∈ pi_seen s) then pret tt
       else
         pmodify (set_seen ({[participant_user_id p]} ∪ pi_seen s)) ;;;
         buffer_append (user, Some p)) ;;;
      chunk_participants users ps'
  end.

(** [self.requests.pop(i)] *)
Definition list_pop {A} (i : nat) (l : list A) : list A :=
  take i l ++ drop (S i) l.

(** One iteration of [for i in reversed(range(len(self.requests)))]. *)
Definition chunk_response (i : nat) (res : ChannelParticipants) : PM unit :=
  if bool_decide (cp_users res = []) then
    pmodify (fun s => set_requests (list_pop i (pi_requests s)) s)
  else
    s <-- pget ;;
    match pi_requests s !! i with
    | None => praise KeyError
    | Some r =>
        pmodify (set_requests
          (<[i := gp_set_offset r
                   (gp_offset r + Z.of_nat (length (cp_participants res)))]>
             (pi_requests s))) ;;;
        chunk_participants (users_dict (cp_users res)) (cp_participants res)
    end.

Fixpoint chunk_responses (idx : list nat)
    (results : list ChannelParticipants) : PM unit :=
  match idx with
  | [] => pret tt
  | i :: idx' =>
      match results !! i with
      | None => praise KeyError
      | Some res => chunk_response i res ;;; chunk_responses idx' results
      end
  end.

(** [_ParticipantsIter._load_next_chunk()]: [true] means exhausted. *)
Definition participants_load_next_chunk (srv : Server) : PM bool :=
  s <-- pget ;;
  match pi_requests s with
  | [] => pret true
  | r0 :: rest =>
      let r0' := gp_set_limit r0
                   (lim_sub_min (pi_limit s) (gp_offset r0)
                      _MAX_PARTICIPANTS_CHUNK_SIZE) in
      pmodify (set_requests (r0' :: rest)) ;;;
      if lim_lt (pi_limit s) (gp_offset r0') then pret true else
      let reqs := r0' :: rest in
      pmodify (log_call (CallGetParticipants reqs)) ;;;
      let results := map (srv_get_participants srv) reqs in
      chunk_responses (rev (seq 0 (length reqs))) results ;;;
      pret false
  end.

(** ** The generic enumerator *)

Definition lim_take {A} (l : Limit) (xs : list A) : list A :=
  match l with LimFin n => take (Z.to_nat n) xs | LimInf => xs end.
Definition lim_sub (l : Limit) (k : nat) : Limit :=
  match l with LimFin n => LimFin (n - Z.of_nat k) | LimInf => LimInf end.

(** Modelled from the spec: the generic enumerator ([RequestIter], whose
    source is not under src/).  It loads a chunk only while the remaining
    count is positive, hands out the buffer filled by that load (at most
    the remaining count of it) and stops once the strategy signals
    exhaustion.  [fuel] bounds the number of chunk loads. *)
Fixpoint participants_drain (srv : Server) (fuel : nat) (left : Limit)
    : PM (list (User * option Participant)) :=
  match fuel with
  | O => pret []
  | S fuel' =>
      if lim_le0 left then pret [] else
      done <-- participants_load_next_chunk srv ;;
      s <-- pget ;;
      let items := lim_take left (pi_buffer s) in
      pmodify (set_buffer []) ;;;
      if done then pret items else
      rest <-- participants_drain srv fuel' (lim_sub left (length items)) ;;
      pret (items ++ rest)
  end.

(** Modelled from the spec: the enumerator first runs the strategy's
    initialisation; [StopAsyncIteration] raised there ends the sequence
    with no items, [true] means the buffer already holds every item, and
    otherwise chunks are loaded with [participants_drain]. *)
Definition participants_collect (srv : Server) (fuel : nat)
    (entity : InputPeer) (filter_arg : FilterArg) (search : string)
    (aggressive : bool) : PM (list (User * option Participant)) :=
  fun s0 =>
    match participants_init srv entity filter_arg search aggressive s0 with
    | (Err StopAsyncIteration, s) => (Ok [], s)
    | (Err e, s) => (Err e, s)
    | (Ok done, s) =>
        (let items0 := lim_take (pi_limit s) (pi_buffer s) in
         pmodify (set_buffer []) ;;;
         if done then pret items0 else
         rest <-- participants_drain srv fuel
                    (lim_sub (pi_limit s) (length items0)) ;;
         pret (items0 ++ rest)) s
    end.

(** ** Admin log *)

(** The fourteen category flags of [iter_admin_log] (truthiness). *)
Record AdminLogFlags := mkAdminLogFlags {
  fl_join : bool; fl_leave : bool; fl_invite : bool; fl_restrict : bool;
  fl_unrestrict : bool; fl_ban : bool; fl_unban : bool; fl_promote : bool;
  fl_demote : bool; fl_info : bool; fl_settings : bool; fl_pinned : bool;
  fl_edit : bool; fl_delete : bool
}.

(** [ChannelAdminLogEventsFilter] with the service's flag names. *)
Record ChannelAdminLogEventsFilter := mkChannelAdminLogEventsFilter {
  ef_join : bool; ef_leave : bool; ef_invite : bool; ef_ban : bool;
  ef_unban : bool; ef_kick : bool; ef_unkick : bool; ef_promote : bool;
  ef_demote : bool; ef_info : bool; ef_settings : bool; ef_pinned : bool;
  ef_edit : bool; ef_delete : bool
}.

(** The [events_filter] computed at the start of [_AdminLogIter._init]. *)
Definition admin_log_events_filter (f : AdminLogFlags)
    : option ChannelAdminLogEventsFilter :=
  if existsb id [fl_join f; fl_leave f; fl_invite f; fl_restrict f;
                 fl_unrestrict f; fl_ban f; fl_unban f; fl_promote f;
                 fl_demote f; fl_info f; fl_settings f; fl_pinned f;
                 fl_edit f; fl_delete f]
  then Some {| ef_join := fl_join f; ef_leave := fl_leave f;
               ef_invite := fl_invite f; ef_ban := fl_restrict f;
               ef_unban := fl_unrestrict f; ef_kick := fl_ban f;
               ef_unkick := fl_unban f; ef_promote := fl_promote f;
               ef_demote := fl_demote f; ef_info := fl_info f;
               ef_settings := fl_settings f; ef_pinned := fl_pinned f;
               ef_edit := fl_edit f; ef_delete := fl_delete f |}
  else None.

(** The kinds of [ChannelAdminLogEvent.action] that [_load_next_chunk]
    distinguishes. *)
Inductive AdminLogAction :=
  | ActionEditMessage
  | ActionDeleteMessage
  | ActionOther.

Record ChannelAdminLogEvent := mkChannelAdminLogEvent {
  ev_id : Z;
  ev_action : AdminLogAction
}.

(** An entity of [r.users] or [r.chats], with [utils.get_peer_id] of it. *)
Record Entity := mkEntity { ent_peer_id : Z }.

(** [channels.AdminLogResults] *)
Record AdminLogResults := mkAdminLogResults {
  r_events : list ChannelAdminLogEvent;
  r_users : list Entity;
  r_chats : list Entity
}.

(** [GetAdminLogRequest] *)
Record GetAdminLogRequest := mkGetAdminLog {
  al_channel : InputPeer;
  al_q : string;
  al_min_id : Z;
  al_max_id : Z;
  al_limit : Z;
  al_events_filter : option ChannelAdminLogEventsFilter;
  al_admins : option (list InputPeer)
}.

Definition al_set_limit (r : GetAdminLogRequest) (l : Z) :=
  mkGetAdminLog (al_channel r) (al_q r) (al_min_id r) (al_max_id r) l
    (al_events_filter r) (al_admins r).
Definition al_set_max_id (r : GetAdminLogRequest) (m : Z) :=
  mkGetAdminLog (al_channel r) (al_q r) (al_min_id r) m (al_limit r)
    (al_events_filter r) (al_admins r).

(** [custom.AdminLogEvent(ev, entities)]; [_finish_init] on the embedded
    messages only attaches the client and the lookup table to them. *)
Record AdminLogEvent := mkAdminLogEvent {
  le_original : ChannelAdminLogEvent;
  le_entities : gmap Z Entity
}.

(** [_AdminLogIter] state: the request, the buffer and the calls made. *)
Record AIter := mkAIter {
  ai_request : GetAdminLogRequest;
  ai_buffer : list AdminLogEvent;
  ai_calls : list GetAdminLogRequest
}.

(** [_AdminLogIter._init] once the target and the admins are resolved. *)
Definition admin_log_init (entity : InputPeer) (admin_list : list InputPeer)
    (search : option string) (min_id max_id : Z) (flags : AdminLogFlags)
    : AIter :=
  let events_filter := admin_log_events_filter flags in
  mkAIter
    (mkGetAdminLog entity
       (match search with Some q => if py_truthy_str q then q else "" | None => "" end)%string
       min_id max_id 0 events_filter
       (match admin_list with [] => None | _ => Some admin_list end))
    [] [].

(** [min((e.id for e in events), default=0)] *)
Definition min_event_id (evs : list ChannelAdminLogEvent) : Z :=
  match evs with
  | [] => 0
  | e :: es => fold_left (fun m e' => Z.min m (ev_id e')) es (ev_id e)
  end.

(** [{utils.get_peer_id(x): x for x in itertools.chain(r.users, r.chats)}] *)
Definition entities_dict (xs : list Entity) : gmap Z Entity :=
  fold_left (fun m x => <[ent_peer_id x := x]> m) xs ∅.

(** [self.request.limit = min(self.left, _MAX_ADMIN_LOG_CHUNK_SIZE)] *)
Definition admin_log_chunk_request (left : Limit) (it : AIter)
    : GetAdminLogRequest :=
  al_set_limit (ai_request it) (lim_sub_min left 0 _MAX_ADMIN_LOG_CHUNK_SIZE).

(** [_AdminLogIter._load_next_chunk()] with [left = self.left]; the boolean
    is [true] when the method returns [True] (exhausted). *)
Definition admin_log_load_next_chunk
    (srv : GetAdminLogRequest -> AdminLogResults) (left : Limit) (it : AIter)
    : bool * AIter :=
  let req := admin_log_chunk_request left it in
  let r := srv req in
  let entities := entities_dict (r_users r ++ r_chats r) in
  let req' := al_set_max_id req (min_event_id (r_events r)) in
  let buf := ai_buffer it ++
             map (fun ev => mkAdminLogEvent ev entities) (r_events r) in
  (Z.of_nat (length (r_events r)) <? al_limit req',
   mkAIter req' buf (ai_calls it ++ [req])).

(** ** [ChatMethods.action] *)

Definition SendMessageAction_SUBCLASS_OF_ID : Z := 0x20b2cc21.

(** A TL object: an action, or an object of another TL type carrying that
    type's [SUBCLASS_OF_ID]. *)
Inductive TLObject :=
  | TLSendMessageAction (a : SendMessageAction)
  | TLOtherObject (subclass_of_id : Z).

Definition tl_subclass_of_id (o : TLObject) : Z :=
  match o with
  | TLSendMessageAction _ => SendMessageAction_SUBCLASS_OF_ID
  | TLOtherObject i => i
  end.

(** The [action] argument: a string, a TL object, a class, or any other
    Python value. *)
Inductive ActionArg :=
  | ActionStr (s : string)
  | ActionTL (o : TLObject)
  | ActionClass
  | ActionOtherValue.

(** [_ChatAction._str_mapping] as built when the class is created: one
    action object per tag. *)
Definition _str_mapping : list (string * SendMessageAction) := [
  ("typing", SendMessageTypingAction);
  ("contact", SendMessageChooseContactAction);
  ("game", SendMessageGamePlayAction);
  ("location", SendMessageGeoLocationAction);
  ("record-audio", SendMessageRecordAudioAction);
  ("record-voice", SendMessageRecordAudioAction);
  ("record-round", SendMessageRecordRoundAction);
  ("record-video", SendMessageRecordVideoAction);
  ("audio", SendMessageUploadAudioAction 1);
  ("voice", SendMessageUploadAudioAction 1);
  ("round", SendMessageUploadRoundAction 1);
  ("video", SendMessageUploadVideoAction 1);
  ("photo", SendMessageUploadPhotoAction 1);
  ("document", SendMessageUploadDocumentAction 1);
  ("file", SendMessageUploadDocumentAction 1);
  ("song", SendMessageUploadDocumentAction 1);
  ("cancel", SendMessageCancelAction)]%string.

(** [table[key]] on the contents [table] of the dict, [None] for a
    [KeyError]. *)
Definition str_mapping_lookup_in (table : list (string * SendMessageAction))
    (key : string) : option SendMessageAction :=
  snd <$> find (fun kv => String.eqb (fst kv) key) table.

(** [_str_mapping[key]] on the table as built. *)
Definition str_mapping_lookup (key : string) : option SendMessageAction :=
  str_mapping_lookup_in _str_mapping key.

(** The objects of [_str_mapping] are shared: [ChatMethods.action] gives
    the table's object itself to the controller, and [progress] on that
    controller assigns the object's [progress] attribute, which every later
    lookup of the tag sees.  The contents the table can have: the initial
    ones, and any contents obtained by assigning [progress] (any value) of
    one of its objects. *)
Inductive str_mapping_reachable : list (string * SendMessageAction) -> Prop :=
  | str_mapping_initial : str_mapping_reachable _str_mapping
  | str_mapping_progress table i k a p :
      str_mapping_reachable table ->
      table !! i = Some (k, a) ->
      str_mapping_reachable (<[i := (k, set_progress a p)]> table).

(** The table after [progress] has stored [100] in the object of the tag
    ['document'] (through a controller made by [action('document')]). *)
Definition str_mapping_after_document_upload : list (string * SendMessageAction) :=
  <[13%nat := ("document"%string, set_progress (SendMessageUploadDocumentAction 1) 100)]>
    _str_mapping.

(** What [ChatMethods.action] returns: the (not yet awaited) coroutine of
    the cancel request, or a new controller. *)
Inductive ActionReturn :=
  | ReturnCancelRequest (entity : InputPeer)
  | ReturnController (c : ChatAction).

(** [_ChatAction.__init__] *)
Definition chat_action_new (chat : InputPeer) (a : SendMessageAction)
    (delay : Z) (auto_cancel : bool) : ChatAction :=
  mkChatAction chat a delay auto_cancel false None.

Definition is_cancel_action (a : SendMessageAction) : bool :=
  match a with SendMessageCancelAction => true | _ => false end.

(** [ChatMethods.action(entity, action, *, delay, auto_cancel)], a plain
    (non-async) method: it takes no server and performs no call.
    [str_mapping] is the current contents of [_ChatAction._str_mapping]. *)
Definition chat_methods_action (str_mapping : list (string * SendMessageAction))
    (entity : InputPeer) (action : ActionArg)
    (delay : Z) (auto_cancel : bool) : result ActionReturn :=
  let checked : result SendMessageAction :=
    match action with
    | ActionStr s =>
        match str_mapping_lookup_in str_mapping (py_lower s) with
        | Some a => Ok a
        | None => Err ValueError            (* No such action *)
        end
    | ActionTL o =>
        if negb (tl_subclass_of_id o =? SendMessageAction_SUBCLASS_OF_ID)
        then Err ValueError                  (* Cannot use ... as action *)
        else match o with
             | TLSendMessageAction a => Ok a
             | TLOtherObject _ => Err ValueError  (* no other type has this id *)
             end
    | ActionClass => Err ValueError          (* pass an instance *)
    | ActionOtherValue => Err ValueError     (* Cannot use ... as action *)
    end in
  match checked with
  | Err e => Err e
  | Ok a =>
      if is_cancel_action a then Ok (ReturnCancelRequest entity)
      else Ok (ReturnController (chat_action_new entity a delay auto_cancel))
  end.

(** ** The background task of the controller *)

Definition ca_set_running (c : ChatAction) (b : bool) :=
  mkChatAction (ca_chat c) (ca_action c) (ca_delay c) (ca_auto_cancel c)
    b (ca_task c).
Definition ca_set_task (c : ChatAction) (t : option TaskState) :=
  mkChatAction (ca_chat c) (ca_action c) (ca_delay c) (ca_auto_cancel c)
    (ca_running c) t.
Definition ca_set_chat (c : ChatAction) (p : InputPeer) :=
  mkChatAction p (ca_action c) (ca_delay c) (ca_auto_cancel c)
    (ca_running c) (ca_task c).

(** [__aenter__] with [chat] the result of [get_input_entity]: the task
    is created but has not run yet. *)
Definition chat_action_aenter (c : ChatAction) (chat : InputPeer) : ChatAction :=
  ca_set_task (ca_set_running (ca_set_chat c chat) true) (Some TaskNotStarted).

(** One scheduling step of [_update] when no cancellation is pending;
    [r] is the outcome of the await the task is suspended on (the send
    or the sleep).  Returns the controller and the calls issued. *)
Definition update_step (c : ChatAction) (r : result unit)
    : ChatAction * list Call :=
  let send := CallSetTyping (ca_chat c) (ca_action c) in
  match ca_task c with
  | Some TaskNotStarted | Some TaskAtSleep =>
      (* while self._running: await self._client(self._request) *)
      if ca_running c then (ca_set_task c (Some TaskAtSend), [send])
      else (ca_set_task c (Some (TaskDone (Ok tt))), [])
  | Some TaskAtSend =>
      match r with
      | Ok _ => (ca_set_task c (Some TaskAtSleep), [])
      | Err ConnectionError => (ca_set_task c (Some (TaskDone (Ok tt))), [])
      | Err e => (ca_set_task c (Some (TaskDone (Err e))), [])
      end
  | _ => (c, [])
  end.

(** [self._task.cancel(); await self._task]: how the task ends once
    cancelled.  An unstarted coroutine receives [CancelledError] before its
    first line; a suspended one receives it at its await, inside the [try],
    and its [except asyncio.CancelledError] handler sends the cancel action
    when [auto_cancel] is set ([cancel_send] is the outcome of that call);
    cancelling a finished task changes nothing. *)
Definition task_cancel_and_await (c : ChatAction) (cancel_send : result unit)
    (t : TaskState) : list Call * result unit :=
  match t with
  | TaskNotStarted => ([], Err CancelledError)
  | TaskAtSend | TaskAtSleep =>
      if ca_auto_cancel c
      then ([CallSetTyping (ca_chat c) SendMessageCancelAction], cancel_send)
      else ([], Ok tt)
  | TaskDone r => ([], r)
  end.

(** [_ChatAction.__aexit__] *)
Definition chat_action_aexit (c : ChatAction) (cancel_send : result unit)
    : ChatAction * list Call * result unit :=
  let c1 := ca_set_running c false in
  match ca_task c1 with
  | None => (c1, [], Ok tt)
  | Some t =>
      let '(calls, r) := task_cancel_and_await c1 cancel_send t in
      match r with
      | Ok _ | Err CancelledError => (ca_set_task c1 None, calls, Ok tt)
      | Err e => (c1, calls, Err e)
      end
  end.

(** Consecutive scheduling steps of the task, [rs] giving the outcome of
    each await; the calls of all steps in order. *)
Fixpoint update_run (c : ChatAction) (rs : list (result unit))
    : ChatAction * list Call :=
  match rs with
  | [] => (c, [])
  | r :: rs' =>
      let '(c1, k1) := update_step c r in
      let '(c2, k2) := update_run c1 rs' in
      (c2, k1 ++ k2)
  end.

(** ** Concrete inputs *)

(** An upload controller as [client.action(chat, 'document')] builds it. *)
Definition document_action : ChatAction :=
  chat_action_new (InputPeerChat 5) (SendMessageUploadDocumentAction 1) 4 true.

(** A small group with one member, [Bob], who has no username. *)
Definition bob : User := mkUser 1 "Bob" None.
Definition bob_group_server : Server :=
  mkServer (fun _ => 1)
    (fun _ => mkChatFull (ChatParticipants [mkParticipant 1]) [bob])
    (fun _ => bob)
    (fun _ => mkChannelParticipants [] []).

(** A channel log with events 7, 5, 3 and 2 (newest first), served two
    at a time below [max_id]. *)
Definition admin_log_demo_events : list ChannelAdminLogEvent :=
  [mkChannelAdminLogEvent 7 ActionOther;
   mkChannelAdminLogEvent 5 ActionEditMessage;
   mkChannelAdminLogEvent 3 ActionDeleteMessage;
   mkChannelAdminLogEvent 2 ActionOther].

Definition admin_log_demo_server (req : GetAdminLogRequest) : AdminLogResults :=
  mkAdminLogResults
    (take 2 (List.filter
               (fun e => (al_max_id req =? 0) || (ev_id e <=? al_max_id req))
               admin_log_demo_events)) [] [].

Definition admin_log_demo_iter : AIter :=
  admin_log_init (InputPeerChannel 1) [] None 0 0
    (mkAdminLogFlags false false false false false false false false false
       false false false false false).

(** A controller for 'typing' after [__aenter__], whose first periodic
    send fails with [ConnectionError]: [_update] swallows it and ends. *)
Definition typing_after_connection_error : ChatAction :=
  let c0 := chat_action_aenter
              (chat_action_new (InputPeerChat 5) SendMessageTypingAction 4 true)
              (InputPeerChat 5) in
  let c1 := fst (update_step c0 (Ok tt)) in
  fst (update_step c1 (Err ConnectionError)).

(** A second member, [Alice], with a username. *)
Definition alice : User := mkUser 2 "Alice" (Some "alice").

(** A group whose full-chat answer lists participants [ps] and users [us];
    as a channel it serves the same page at offset 0 and nothing after. *)
Definition group_server (ps : list Participant) (us : list User) : Server :=
  mkServer (fun _ => Z.of_nat (length ps))
    (fun _ => mkChatFull (ChatParticipants ps) us)
    (fun _ => alice)
    (fun req => if gp_offset req =? 0 then mkChannelParticipants ps us
                else mkChannelParticipants [] []).

(** A group whose member list is hidden from the caller. *)
Definition forbidden_server : Server :=
  mkServer (fun _ => 0)
    (fun _ => mkChatFull ChatParticipantsForbidden [])
    (fun _ => alice)
    (fun _ => mkChannelParticipants [] []).

(** A request of the channel strategy at the given offset. *)
Definition demo_request (offset : Z) : GetParticipantsRequest :=
  mkGetParticipants (InputPeerChannel 8) ChannelParticipantsRecent offset
    _MAX_PARTICIPANTS_CHUNK_SIZE 0.

(** The 'document' controller after [__aenter__], suspended at its sleep. *)
Definition document_sleeping : ChatAction :=
  ca_set_task (chat_action_aenter document_action (InputPeerChat 5))
    (Some TaskAtSleep).

(** ** Proof support *)

(** A remote side that answers the admin log with positive event ids and
    only with events not newer than a non-zero [max_id]. *)
Definition admin_log_server_ok
    (srv : GetAdminLogRequest -> AdminLogResults) : Prop :=
  forall req, Forall (fun e => 0 < ev_id e /\
                         (al_max_id req <> 0 -> ev_id e <= al_max_id req))
                     (r_events (srv req)).

Definition item_key (x : User * option Participant) : Z := user_id (fst x).

(** Items [l] have distinct ids, all recorded in the seen-set, and all
    accepted by [filter_entity]. *)
Definition seen_inv (l : list (User * option Participant)) (s : PIter) : Prop :=
  NoDup (map item_key l) /\
  Forall (fun x => item_key x ∈ pi_seen s) l /\
  Forall (fun x => filter_entity_eval (pi_filter_entity s) (fst x) = Ok true) l.

(** The items handed out so far ([acc]) followed by the buffer. *)
Definition iter_inv (fe : FilterEntity) (acc : list (User * option Participant))
    (s : PIter) : Prop :=
  pi_filter_entity s = fe /\ seen_inv (acc ++ pi_buffer s) s.

(** An item carries the participant record of the user it holds. *)
Definition item_has_participant (x : User * option Participant) : Prop :=
  exists p, snd x = Some p /\ user_id (fst x) = participant_user_id p.

(** The requests kept by one batched load: those whose response has no
    users are dropped, the others advance their offset by the number of
    participants returned, in their original order. *)
Fixpoint kept_requests (reqs : list GetParticipantsRequest)
    (results : list ChannelParticipants) : list GetParticipantsRequest :=
  match reqs, results with
  | r :: rs, res :: ress =>
      (if bool_decide (cp_users res = []) then []
       else [gp_set_offset r
               (gp_offset r + Z.of_nat (length (cp_participants res)))])
      ++ kept_requests rs ress
  | _, _ => []
  end.

Ltac frame_close :=
  lazymatch goal with
  | |- _ ⊆ _ => set_solver
  | |- ex _ => exists []; by rewrite app_nil_r
  | _ => done
  end.

Ltac conj_split := repeat match goal with |- _ /\ _ => split end.

Ltac pm_unfold :=
  unfold pbind, pret, praise, pmodify, pget, lift in *.

Ltac aexit_close :=
  lazymatch goal with
  | |- _ /\ _ => split; aexit_close
  | |- _ \/ _ => first [left; aexit_close | right; aexit_close]
  | |- exists e, _ => eexists; aexit_close
  | |- _ <> _ => discriminate
  | |- _ = _ => reflexivity
  | |- True => exact I
  end.

(** ** Properties *)

(** Claim C1 (code evaluation at the failing input): with the action
    'document', [progress(1, 4)] stores [100 * round(0.25) = 0] in the
    shared action, not [round(100 * 1 / 4) = 25]. *)
Theorem progress_quarter_stores_zero :
  progress document_action 1 4 =
    Ok (ca_set_action document_action (SendMessageUploadDocumentAction 0)).
Proof. reflexivity. Qed.

(** Claim C2 (code evaluation at the failing input): searching "al" in a
    small group whose member [Bob] has no username makes the local match
    predicate raise [AttributeError] (on [None.lower()]) instead of
    evaluating to [false]; the initialisation of the enumeration fails. *)
Theorem filter_entity_no_username_raises :
  filter_entity_eval (FilterSearch "al") bob = Err AttributeError /\
  filter_entity_eval (FilterSearch "al") (mkUser 1 "Bob" (Some "")) =
    Err AttributeError /\
  fst (participants_init bob_group_server (InputPeerChat 5) FilterNone "al"
         false (piter_new LimInf)) = Err AttributeError.
Proof. split; [|split]; reflexivity. Qed.

(** Claim C3: whenever a category flag is set the events filter is built,
    and it maps restrict to the service's ban flag, ban to kick, unrestrict
    to unban and unban to unkick, copying every other flag under its own
    name; an unset flag gives a cleared service flag. *)
Theorem admin_log_filter_mapping (entity : InputPeer)
    (admin_list : list InputPeer) (search : option string) (min_id max_id : Z)
    (f : AdminLogFlags)
    (Hset : existsb id [fl_join f; fl_leave f; fl_invite f; fl_restrict f;
                        fl_unrestrict f; fl_ban f; fl_unban f; fl_promote f;
                        fl_demote f; fl_info f; fl_settings f; fl_pinned f;
                        fl_edit f; fl_delete f] = true) :
  exists ef,
    al_events_filter
      (ai_request (admin_log_init entity admin_list search min_id max_id f))
      = Some ef /\
    ef_ban ef = fl_restrict f /\ ef_kick ef = fl_ban f /\
    ef_unban ef = fl_unrestrict f /\ ef_unkick ef = fl_unban f /\
    ef_join ef = fl_join f /\ ef_leave ef = fl_leave f /\
    ef_invite ef = fl_invite f /\ ef_promote ef = fl_promote f /\
    ef_demote ef = fl_demote f /\ ef_info ef = fl_info f /\
    ef_settings ef = fl_settings f /\ ef_pinned ef = fl_pinned f /\
    ef_edit ef = fl_edit f /\ ef_delete ef = fl_delete f.
Proof.
  unfold admin_log_init, admin_log_events_filter.
  rewrite Hset; simpl. eexists; split; [reflexivity|].
  simpl. repeat split.
Qed.

Lemma admin_log_filter_mapping_witness :
  existsb id [false; false; false; true; false; true; false; false; false;
              false; false; false; false; false] = true /\
  exists ef,
    al_events_filter
      (ai_request (admin_log_init (InputPeerChannel 1) [] None 0 0
         (mkAdminLogFlags false false false true false true false false false
            false false false false false)))
      = Some ef /\
    ef_ban ef = true /\ ef_kick ef = true /\ ef_unban ef = false /\
    ef_unkick ef = false /\ ef_join ef = false /\ ef_leave ef = false /\
    ef_invite ef = false /\ ef_promote ef = false /\ ef_demote ef = false /\
    ef_info ef = false /\ ef_settings ef = false /\ ef_pinned ef = false /\
    ef_edit ef = false /\ ef_delete ef = false.
Proof.
  split; [reflexivity|].
  exact (admin_log_filter_mapping (InputPeerChannel 1) [] None 0 0
           (mkAdminLogFlags false false false true false true false false false
              false false false false false) eq_refl).
Defined.

Lemma fold_min_le_start (es : list ChannelAdminLogEvent) (m : Z) :
  fold_left (fun m e' => Z.min m (ev_id e')) es m <= m.
Proof.
  revert m; induction es as [|e es IH]; intros m; simpl; [lia|].
  specialize (IH (Z.min m (ev_id e))); lia.
Qed.

Lemma fold_min_le_elem (es : list ChannelAdminLogEvent) (m : Z) e :
  In e es -> fold_left (fun m e' => Z.min m (ev_id e')) es m <= ev_id e.
Proof.
  revert m; induction es as [|e' es IH]; intros m Hin; simpl in *; [done|].
  destruct Hin as [->|Hin]; [|by apply IH].
  pose proof (fold_min_le_start es (Z.min m (ev_id e))); lia.
Qed.

Lemma fold_min_pos (es : list ChannelAdminLogEvent) (m : Z) :
  0 < m -> Forall (fun e => 0 < ev_id e) es ->
  0 < fold_left (fun m e' => Z.min m (ev_id e')) es m.
Proof.
  revert m; induction es as [|e es IH]; intros m Hm Hall; simpl; [done|].
  inversion Hall; subst. apply IH; [lia|done].
Qed.

Lemma min_event_id_le (evs : list ChannelAdminLogEvent) e :
  In e evs -> min_event_id evs <= ev_id e.
Proof.
  destruct evs as [|e0 es]; simpl; [done|].
  intros [<-|Hin]; [apply fold_min_le_start|by apply fold_min_le_elem].
Qed.

Lemma min_event_id_pos (evs : list ChannelAdminLogEvent) :
  evs <> [] -> Forall (fun e => 0 < ev_id e) evs -> 0 < min_event_id evs.
Proof.
  destruct evs as [|e0 es]; simpl; [done|].
  intros _ Hall. inversion Hall; subst. by apply fold_min_pos.
Qed.

(** Claim C4: one chunk load sets the cursor's [max_id] to the smallest
    event id of the batch (0 for an empty batch, which, with a positive
    remaining count, also ends the enumeration); when the remote side
    honours [max_id], every event of the next batch has an id no larger
    than every event of this one. *)
Theorem admin_log_max_id_descends
    (srv1 srv2 : GetAdminLogRequest -> AdminLogResults)
    (left1 left2 : Limit) (it : AIter)
    (H1 : admin_log_server_ok srv1) (H2 : admin_log_server_ok srv2) :
  let evs1 := r_events (srv1 (admin_log_chunk_request left1 it)) in
  let it1 := snd (admin_log_load_next_chunk srv1 left1 it) in
  let evs2 := r_events (srv2 (admin_log_chunk_request left2 it1)) in
  al_max_id (ai_request it1) = min_event_id evs1 /\
  (evs1 = [] -> lim_le0 left1 = false ->
   fst (admin_log_load_next_chunk srv1 left1 it) = true) /\
  Forall (fun e2 => Forall (fun e1 => ev_id e2 <= ev_id e1) evs1) evs2.
Proof.
  cbv zeta. split; [reflexivity|split].
  - intros Hnil Hpos. unfold admin_log_load_next_chunk; cbn [fst].
    rewrite Hnil. unfold min_event_id; simpl.
    unfold lim_le0 in Hpos; unfold lim_sub_min, _MAX_ADMIN_LOG_CHUNK_SIZE.
    destruct left1 as [n|]; [apply Z.leb_gt in Hpos; apply Z.ltb_lt; lia|done].
  - set (evs1 := r_events (srv1 (admin_log_chunk_request left1 it))).
    destruct (decide (evs1 = [])) as [Hnil|Hne].
    + apply Forall_forall; intros e2 _. rewrite Hnil; constructor.
    + assert (Hmax : al_max_id (admin_log_chunk_request left2
                (snd (admin_log_load_next_chunk srv1 left1 it)))
                = min_event_id evs1) by reflexivity.
      assert (Hpos : 0 < min_event_id evs1).
      { apply min_event_id_pos; [done|].
        specialize (H1 (admin_log_chunk_request left1 it)).
        eapply Forall_impl; [exact H1|]; simpl; tauto. }
      specialize (H2 (admin_log_chunk_request left2
                        (snd (admin_log_load_next_chunk srv1 left1 it)))).
      eapply Forall_impl; [exact H2|]; intros e2 [_ He2].
      rewrite Hmax in He2. specialize (He2 ltac:(lia)).
      apply Forall_forall; intros e1 Hin1.
      apply list_elem_of_In, min_event_id_le in Hin1. lia.
Qed.

Lemma admin_log_demo_server_ok : admin_log_server_ok admin_log_demo_server.
Proof.
  intros req; unfold admin_log_demo_server; simpl.
  destruct (al_max_id req =? 0) eqn:E; simpl.
  - repeat constructor; lia.
  - apply Z.eqb_neq in E.
    destruct (7 <=? al_max_id req) eqn:E7; destruct (5 <=? al_max_id req) eqn:E5;
    destruct (3 <=? al_max_id req) eqn:E3; destruct (2 <=? al_max_id req) eqn:E2;
    simpl; repeat constructor; simpl; intros; lia.
Qed.

Lemma admin_log_max_id_descends_witness :
  admin_log_server_ok admin_log_demo_server /\
  (let evs1 := r_events (admin_log_demo_server
                 (admin_log_chunk_request (LimFin 10) admin_log_demo_iter)) in
   let it1 := snd (admin_log_load_next_chunk admin_log_demo_server
                     (LimFin 10) admin_log_demo_iter) in
   let evs2 := r_events (admin_log_demo_server
                 (admin_log_chunk_request (LimFin 8) it1)) in
   al_max_id (ai_request it1) = min_event_id evs1 /\
   (evs1 = [] -> lim_le0 (LimFin 10) = false ->
    fst (admin_log_load_next_chunk admin_log_demo_server (LimFin 10)
           admin_log_demo_iter) = true) /\
   Forall (fun e2 => Forall (fun e1 => ev_id e2 <= ev_id e1) evs1) evs2).
Proof.
  split; [exact admin_log_demo_server_ok|].
  exact (admin_log_max_id_descends admin_log_demo_server admin_log_demo_server
           (LimFin 10) (LimFin 8) admin_log_demo_iter
           admin_log_demo_server_ok admin_log_demo_server_ok).
Defined.

(** Claim C5: a chunk load requests [min(remaining, 100)] events (100 when
    the remaining count is unbounded), sends exactly that request, and
    reports exhaustion exactly when the batch holds fewer events than that
    limit. *)
Theorem admin_log_chunk_limit_and_halt
    (srv : GetAdminLogRequest -> AdminLogResults) (left : Limit) (it : AIter) :
  let req := admin_log_chunk_request left it in
  let '(done, it') := admin_log_load_next_chunk srv left it in
  al_limit req = match left with
                 | LimFin n => Z.min n _MAX_ADMIN_LOG_CHUNK_SIZE
                 | LimInf => _MAX_ADMIN_LOG_CHUNK_SIZE
                 end /\
  ai_calls it' = ai_calls it ++ [req] /\
  al_limit (ai_request it') = al_limit req /\
  (done = true <-> Z.of_nat (length (r_events (srv req))) < al_limit req).
Proof.
  cbv zeta. unfold admin_log_load_next_chunk. cbv zeta.
  split; [|split; [reflexivity|split; [reflexivity|]]].
  - destruct left; simpl; [f_equal; lia|reflexivity].
  - simpl. apply Z.ltb_lt.
Qed.

(** Claim C6: enumerating a large group (channel) with a non-positive limit
    produces no item, and the only remote call is the full-channel fetch
    that sets the total count. *)
Theorem channel_nonpositive_limit_empty (srv : Server) (fuel : nat) (ch : Z)
    (filter_arg : FilterArg) (search : string) (aggressive : bool) (n : Z)
    (Hn : n <= 0) :
  let '(r, s) := participants_collect srv fuel (InputPeerChannel ch)
                   filter_arg search aggressive (piter_new (LimFin n)) in
  r = Ok [] /\
  pi_calls s = [CallGetFullChannel (InputPeerChannel ch)] /\
  pi_buffer s = [] /\
  pi_total s = Some (srv_participants_count srv (InputPeerChannel ch)).
Proof.
  unfold participants_collect, participants_init. pm_unfold. simpl.
  assert (Hle : (n <=? 0) = true) by (apply Z.leb_le; lia).
  rewrite Hle. simpl. repeat split.
Qed.

Lemma channel_nonpositive_limit_empty_witness :
  0 <= 0 /\
  let '(r, s) := participants_collect bob_group_server 3 (InputPeerChannel 8)
                   FilterNone "bo" true (piter_new (LimFin 0)) in
  r = Ok [] /\
  pi_calls s = [CallGetFullChannel (InputPeerChannel 8)] /\
  pi_buffer s = [] /\
  pi_total s = Some (srv_participants_count bob_group_server (InputPeerChannel 8)).
Proof.
  split; [lia|].
  exact (channel_nonpositive_limit_empty bob_group_server 3 8 FilterNone "bo"
           true 0 ltac:(lia)).
Defined.

(** Claim C8: for a channel and a positive limit, [_init] builds one
    search-by-prefix request per symbol of the search string (per letter of
    [ascii_lowercase] when it is empty) when aggressive mode is on and no
    filter was given, and otherwise a single request with the given filter
    or a search filter on the search string; each with offset 0 and limit
    200. *)
Theorem channel_init_requests (srv : Server) (ch : Z) (filter_arg : FilterArg)
    (search : string) (aggressive : bool) (lim : Limit)
    (Hpos : lim_le0 lim = false) :
  let '(r, s) := participants_init srv (InputPeerChannel ch) filter_arg search
                   aggressive (piter_new lim) in
  r = Ok false /\
  (instantiate_filter filter_arg = None <-> filter_arg = FilterNone) /\
  pi_requests s =
    match instantiate_filter filter_arg with
    | None =>
        if aggressive then
          map (fun x => mkGetParticipants (InputPeerChannel ch)
                          (ChannelParticipantsSearch x) 0
                          _MAX_PARTICIPANTS_CHUNK_SIZE 0)
              (py_chars (if py_truthy_str search then search
                         else ascii_lowercase))
        else
          [mkGetParticipants (InputPeerChannel ch)
             (ChannelParticipantsSearch search) 0 _MAX_PARTICIPANTS_CHUNK_SIZE 0]
    | Some f =>
        [mkGetParticipants (InputPeerChannel ch) f 0
           _MAX_PARTICIPANTS_CHUNK_SIZE 0]
    end.
Proof.
  unfold participants_init. pm_unfold. simpl. rewrite Hpos.
  destruct filter_arg as [|k|f]; simpl.
  - destruct aggressive; simpl; repeat split; try done;
      rewrite andb_false_r; reflexivity.
  - rewrite andb_false_r; simpl. repeat split; intros; discriminate.
  - rewrite andb_false_r; simpl. repeat split; intros; discriminate.
Qed.

Lemma channel_init_requests_witness :
  lim_le0 (LimFin 2) = false /\
  let '(r, s) := participants_init bob_group_server (InputPeerChannel 8)
                   FilterNone "ab" true (piter_new (LimFin 2)) in
  r = Ok false /\
  (instantiate_filter FilterNone = None <-> FilterNone = FilterNone) /\
  pi_requests s =
    match instantiate_filter FilterNone with
    | None =>
        if true then
          map (fun x => mkGetParticipants (InputPeerChannel 8)
                          (ChannelParticipantsSearch x) 0
                          _MAX_PARTICIPANTS_CHUNK_SIZE 0)
              (py_chars (if py_truthy_str "ab" then "ab"
                         else ascii_lowercase))
        else
          [mkGetParticipants (InputPeerChannel 8)
             (ChannelParticipantsSearch "ab") 0 _MAX_PARTICIPANTS_CHUNK_SIZE 0]
    | Some f =>
        [mkGetParticipants (InputPeerChannel 8) f 0
           _MAX_PARTICIPANTS_CHUNK_SIZE 0]
    end.
Proof.
  split; [reflexivity|].
  exact (channel_init_requests bob_group_server 8 FilterNone "ab" true
           (LimFin 2) eq_refl).
Defined.

Lemma set_progress_twice (a : SendMessageAction) (p q : Z) :
  set_progress (set_progress a p) q = set_progress a q.
Proof. by destruct a. Qed.

(** The kind of an action object: the object with its [progress] reset. *)
Lemma str_mapping_reachable_shape table :
  str_mapping_reachable table ->
  fst <$> table = fst <$> _str_mapping /\
  (fun kv => set_progress (snd kv) 0) <$> table =
  (fun kv => set_progress (snd kv) 0) <$> _str_mapping.
Proof.
  induction 1 as [|table i k a p Hr [IH1 IH2] Hi]; [done|].
  rewrite !list_fmap_insert; simpl; rewrite set_progress_twice; split.
  - rewrite list_insert_id; [done|]. by rewrite list_lookup_fmap, Hi.
  - rewrite list_insert_id; [done|]. by rewrite list_lookup_fmap, Hi.
Qed.

Lemma lookup_in_parallel (l1 l2 : list (string * SendMessageAction)) key :
  fst <$> l1 = fst <$> l2 ->
  (fun kv => set_progress (snd kv) 0) <$> l1 =
  (fun kv => set_progress (snd kv) 0) <$> l2 ->
  match str_mapping_lookup_in l1 key, str_mapping_lookup_in l2 key with
  | None, None => True
  | Some a, Some b => set_progress a 0 = set_progress b 0
  | _, _ => False
  end.
Proof.
  unfold str_mapping_lookup_in.
  revert l2; induction l1 as [|[k1 a1] l1 IH]; intros [|[k2 a2] l2];
    simpl; try discriminate; [done|].
  intros H1 H2. injection H1 as -> H1. injection H2 as H2a H2.
  destruct (String.eqb k2 key); simpl; [done|]. by apply IH.
Qed.

Lemma reachable_lookup table key :
  str_mapping_reachable table ->
  match str_mapping_lookup_in table key, str_mapping_lookup key with
  | None, None => True
  | Some a, Some b => set_progress a 0 = set_progress b 0
  | _, _ => False
  end.
Proof.
  intros Hr. destruct (str_mapping_reachable_shape table Hr) as [H1 H2].
  exact (lookup_in_parallel table _str_mapping key H1 H2).
Qed.

Lemma str_mapping_after_document_upload_reachable :
  str_mapping_reachable str_mapping_after_document_upload.
Proof.
  apply (str_mapping_progress _str_mapping 13 "document"
           (SendMessageUploadDocumentAction 1) 100); [constructor | reflexivity].
Qed.

(** Claim C9: [ChatMethods.action] raises [ValueError] when called with a
    tag missing from the alias table (after lower-casing), with a class,
    with a TL object of another type or with any other value; a known tag
    resolves through the table to the tag's current object, of the kind
    the table was built with (only its [progress] may have been changed
    by earlier uploads), giving the cancel request or a new controller.
    The method takes no server: no call precedes the error. *)
Theorem action_rejects_invalid (table : list (string * SendMessageAction))
    (Htable : str_mapping_reachable table) (entity : InputPeer) (delay : Z)
    (auto_cancel : bool) :
  (forall s : string,
     match str_mapping_lookup (py_lower s) with
     | None => chat_methods_action table entity (ActionStr s) delay auto_cancel
               = Err ValueError
     | Some a0 =>
         exists a, str_mapping_lookup_in table (py_lower s) = Some a /\
           set_progress a 0 = set_progress a0 0 /\
           chat_methods_action table entity (ActionStr s) delay auto_cancel
             = Ok (if is_cancel_action a then ReturnCancelRequest entity
                   else ReturnController
                          (chat_action_new entity a delay auto_cancel))
     end) /\
  chat_methods_action table entity ActionClass delay auto_cancel
    = Err ValueError /\
  chat_methods_action table entity ActionOtherValue delay auto_cancel
    = Err ValueError /\
  (forall i : Z, chat_methods_action table entity (ActionTL (TLOtherObject i))
                   delay auto_cancel = Err ValueError).
Proof.
  split; [|split; [reflexivity|split; [reflexivity|]]].
  - intros s. pose proof (reachable_lookup table (py_lower s) Htable) as H.
    unfold chat_methods_action.
    destruct (str_mapping_lookup_in table (py_lower s)) as [a|];
      destruct (str_mapping_lookup (py_lower s)) as [a0|]; try contradiction.
    + exists a. split; [done|]. split; [done|].
      destruct (is_cancel_action a); reflexivity.
    + reflexivity.
  - intros i. unfold chat_methods_action; simpl.
    destruct (i =? SendMessageAction_SUBCLASS_OF_ID); reflexivity.
Qed.

Lemma action_rejects_invalid_witness :
  str_mapping_reachable str_mapping_after_document_upload /\
  chat_methods_action str_mapping_after_document_upload (InputPeerChat 5)
    (ActionStr "Document") 4 true =
  Ok (ReturnController (chat_action_new (InputPeerChat 5)
        (SendMessageUploadDocumentAction 100) 4 true)).
Proof.
  pose proof str_mapping_after_document_upload_reachable as Hr.
  split; [exact Hr|].
  destruct (action_rejects_invalid str_mapping_after_document_upload Hr
              (InputPeerChat 5) 4 true) as [Hs _].
  specialize (Hs "Document"%string).
  destruct Hs as (a & Ha & _ & Hc).
  vm_compute in Ha. injection Ha as <-. exact Hc.
Defined.

(** Claim C10 (counterexample): with auto-cancel configured, exiting the
    scope after the loop stopped on a [ConnectionError] issues no cancel
    call at all. *)
Lemma aexit_after_connection_error_no_cancel :
  ca_auto_cancel typing_after_connection_error = true /\
  ca_task typing_after_connection_error = Some (TaskDone (Ok tt)) /\
  chat_action_aexit typing_after_connection_error (Ok tt) =
    (ca_set_task (ca_set_running typing_after_connection_error false) None,
     [], Ok tt).
Proof. repeat split. Qed.

(** Claim C10 (amended): exit clears [_running]; when the loop is
    suspended at its send or its sleep, the cancelled task issues exactly
    one call, the cancel action to the resolved chat, iff auto-cancel is
    set.  Exit then returns normally with the task cleared, unless that
    call raises an error other than [CancelledError]: that error is
    raised and the task attribute is kept ([CancelledError] from the call
    is suppressed like the cancellation itself).  When the loop already
    ended on a [ConnectionError], or no task exists, no call is issued and
    exit returns normally. *)
Theorem aexit_cancels_suspended_loop (c : ChatAction) (cancel_send : result unit) :
  let '(c', calls, r) := chat_action_aexit c cancel_send in
  ca_running c' = false /\
  match ca_task c with
  | Some TaskAtSend | Some TaskAtSleep =>
      calls = (if ca_auto_cancel c
               then [CallSetTyping (ca_chat c) SendMessageCancelAction]
               else []) /\
      r = match (if ca_auto_cancel c then cancel_send else Ok tt) with
          | Ok _ => Ok tt
          | Err e => if exn_eqb e CancelledError then Ok tt else Err e
          end /\
      match r with
      | Ok _ => ca_task c' = None
      | Err _ => ca_task c' = ca_task c
      end
  | Some (TaskDone (Ok _)) | None =>
      calls = [] /\ r = Ok tt /\ ca_task c' = None
  | _ => True
  end.
Proof.
  destruct c as [chat a d ac run t]; unfold chat_action_aexit; simpl.
  destruct t as [[| | |[u0|e0]]|]; try destruct u0; try destruct e0;
    destruct ac; destruct cancel_send as [u|e]; try destruct u;
    try destruct e; simpl; aexit_close.
Qed.

(** *** The seen-set invariant of the participants enumeration *)

Section SeenSet.

Variable fe : FilterEntity.

Lemma seen_inv_app_l l1 l2 s : seen_inv (l1 ++ l2) s -> seen_inv l1 s.
Proof.
  intros (Hnd & Hseen & Hf). rewrite map_app in Hnd.
  apply NoDup_app in Hnd as (Hnd & _ & _).
  apply Forall_app in Hseen as [Hseen _]. apply Forall_app in Hf as [Hf _].
  done.
Qed.

Lemma users_dict_key (us : list User) k u :
  users_dict us !! k = Some u -> user_id u = k.
Proof.
  unfold users_dict.
  assert (Hgen : forall (m : gmap Z User),
            (forall k u, m !! k = Some u -> user_id u = k) ->
            forall k u, fold_left (fun m u => <[user_id u := u]> m) us m !! k
                        = Some u -> user_id u = k).
  { induction us as [|u0 us IH]; intros m Hm; simpl; [done|].
    apply IH. intros k' u' Hk. apply lookup_insert_Some in Hk as [[<- ->]|[_ Hk]];
      [done|by apply Hm]. }
  apply Hgen. intros k' u'. rewrite lookup_empty. done.
Qed.

Lemma iter_inv_requests acc r s : iter_inv fe acc s -> iter_inv fe acc (set_requests r s).
Proof. done. Qed.

Lemma iter_inv_log acc c s : iter_inv fe acc s -> iter_inv fe acc (log_call c s).
Proof. done. Qed.

Lemma iter_inv_append acc s (user : User) (p : Participant) :
  iter_inv fe acc s ->
  filter_entity_eval (pi_filter_entity s) user = Ok true ->
  user_id user ∉ pi_seen s ->
  user_id user = participant_user_id p ->
  iter_inv fe acc
    (set_buffer (pi_buffer s ++ [(user, Some p)])
       (set_seen ({[participant_user_id p]} ∪ pi_seen s) s)).
Proof.
  intros [Hfe (Hnd & Hseen & Hf)] Hok Hnot Hid. split; [done|]. simpl.
  rewrite app_assoc. split; [|split].
  - rewrite map_app. apply NoDup_app. split; [done|split; [|by constructor; [set_solver|constructor]]].
    intros k Hk Hk'. apply list_elem_of_singleton in Hk'. subst k.
    apply list_elem_of_fmap in Hk as (x & Hx & Hin).
    rewrite Forall_forall in Hseen. specialize (Hseen x Hin).
    unfold item_key in Hx, Hseen; simpl in Hx. apply Hnot. rewrite Hx. done.
  - apply Forall_app; split.
    + eapply Forall_impl; [exact Hseen|]; simpl; set_solver.
    + constructor; [|constructor]. unfold item_key; simpl. set_solver.
  - apply Forall_app; split; [done|]. by constructor.
Qed.

Lemma chunk_participants_inv acc (users : gmap Z User) ps s :
  (forall k u, users !! k = Some u -> user_id u = k) ->
  iter_inv fe acc s -> iter_inv fe acc (snd (chunk_participants users ps s)).
Proof.
  intros Hkey. revert s; induction ps as [|p ps IH]; intros s Hs; simpl; [done|].
  pm_unfold. unfold dict_get.
  destruct (users !! participant_user_id p) as [user|] eqn:Hu; simpl; [|done].
  destruct (filter_entity_eval (pi_filter_entity s) user) as [ok|e] eqn:Hf;
    simpl; [|done].
  destruct (negb ok || bool_decide (user_id user ∈ pi_seen s)) eqn:Hc;
    simpl; [by apply IH|].
  apply IH. unfold buffer_append, pmodify; simpl.
  apply orb_false_iff in Hc as [Hok Hnin]. apply negb_false_iff in Hok; subst ok.
  apply bool_decide_eq_false in Hnin.
  apply (iter_inv_append acc s user p Hs Hf Hnin). eapply Hkey; exact Hu.
Qed.

Lemma chunk_response_inv acc i res s :
  iter_inv fe acc s -> iter_inv fe acc (snd (chunk_response i res s)).
Proof.
  intros Hs. unfold chunk_response.
  destruct (bool_decide (cp_users res = [])); pm_unfold; simpl; [done|].
  destruct (pi_requests s !! i) as [r|]; simpl; [|done].
  apply chunk_participants_inv; [apply users_dict_key|done].
Qed.

Lemma chunk_responses_inv acc idx results s :
  iter_inv fe acc s -> iter_inv fe acc (snd (chunk_responses idx results s)).
Proof.
  revert s; induction idx as [|i idx IH]; intros s Hs; simpl; [done|].
  destruct (results !! i) as [res|]; pm_unfold; simpl; [|done].
  pose proof (chunk_response_inv acc i res s Hs) as Hr.
  destruct (chunk_response i res s) as [[u|e] s']; simpl in *; [|done].
  by apply IH.
Qed.

Lemma load_next_chunk_inv srv acc s :
  iter_inv fe acc s -> iter_inv fe acc (snd (participants_load_next_chunk srv s)).
Proof.
  intros Hs. unfold participants_load_next_chunk. pm_unfold; simpl.
  destruct (pi_requests s) as [|r0 rest]; simpl; [done|].
  destruct (lim_lt _ _); simpl; [done|].
  lazymatch goal with
  | |- context [chunk_responses ?idx ?res ?s1] =>
      assert (Hr : iter_inv fe acc (snd (chunk_responses idx res s1)))
        by (apply chunk_responses_inv, iter_inv_log, iter_inv_requests, Hs);
      destruct (chunk_responses idx res s1) as [[u|e] s']
  end; simpl in *; done.
Qed.

Lemma lim_take_prefix {A} (l : Limit) (xs : list A) :
  exists ys, xs = lim_take l xs ++ ys.
Proof.
  destruct l; simpl.
  - exists (drop (Z.to_nat n) xs). by rewrite take_drop.
  - exists []. by rewrite app_nil_r.
Qed.

Lemma drain_inv srv fuel : forall left acc s,
  iter_inv fe acc s ->
  match participants_drain srv fuel left s with
  | (Ok items, s') => iter_inv fe (acc ++ items) s'
  | (Err _, _) => True
  end.
Proof.
  induction fuel as [|fuel IH]; intros left acc s Hs; simpl.
  { by rewrite app_nil_r. }
  destruct (lim_le0 left); pm_unfold; simpl; [by rewrite app_nil_r|].
  pose proof (load_next_chunk_inv srv acc s Hs) as H1.
  destruct (participants_load_next_chunk srv s) as [[fin|e] s1]; simpl in *;
    [|done].
  set (items := lim_take left (pi_buffer s1)).
  assert (H2 : iter_inv fe (acc ++ items) (set_buffer [] s1)).
  { destruct H1 as [Hfe H1]. split; [done|]. simpl. rewrite app_nil_r.
    destruct (lim_take_prefix left (pi_buffer s1)) as [ys Hys].
    rewrite Hys, app_assoc in H1. by apply seen_inv_app_l in H1. }
  destruct fin; simpl; [done|].
  specialize (IH (lim_sub left (length items)) (acc ++ items)
                 (set_buffer [] s1) H2).
  destruct (participants_drain srv fuel _ (set_buffer [] s1)) as [[rest|e] s2];
    simpl; [|done].
  by rewrite app_assoc.
Qed.

End SeenSet.

Lemma channel_init_buffer srv ch filter_arg search aggressive lim :
  let '(r, s) := participants_init srv (InputPeerChannel ch) filter_arg search
                   aggressive (piter_new lim) in
  pi_buffer s = [] /\ r <> Ok true.
Proof.
  unfold participants_init. pm_unfold. simpl.
  destruct (lim_le0 lim); simpl; [split; [done|discriminate]|].
  match goal with
  | |- context [if ?b then _ else _] => destruct b
  end; simpl; split; [done|discriminate|done|discriminate].
Qed.

(** Claim C7: every item produced by enumerating a large group (channel)
    has an id distinct from every other produced item's, and every item is
    accepted by the local match predicate set up at initialisation. *)
Theorem channel_enumeration_no_duplicates (srv : Server) (fuel : nat) (ch : Z)
    (filter_arg : FilterArg) (search : string) (aggressive : bool)
    (lim : Limit) :
  let '(r, s) := participants_collect srv fuel (InputPeerChannel ch)
                   filter_arg search aggressive (piter_new lim) in
  match r with
  | Ok items =>
      NoDup (map (fun x => user_id (fst x)) items) /\
      Forall (fun x => filter_entity_eval (pi_filter_entity s) (fst x) = Ok true)
        items
  | Err _ => True
  end.
Proof.
  unfold participants_collect.
  pose proof (channel_init_buffer srv ch filter_arg search aggressive lim) as Hi.
  destruct (participants_init srv (InputPeerChannel ch) filter_arg search
              aggressive (piter_new lim)) as [[fin|e] s] eqn:Hinit;
    destruct Hi as [Hbuf Hne].
  - destruct fin; [done|]. pm_unfold. rewrite Hbuf.
    assert (Ht : lim_take (pi_limit s) (@nil (User * option Participant)) = [])
      by (destruct (pi_limit s); simpl; [apply take_nil|reflexivity]).
    rewrite Ht. simpl.
    pose proof (drain_inv (pi_filter_entity s) srv fuel
                  (lim_sub (pi_limit s) 0) [] (set_buffer [] s)) as Hd.
    destruct (participants_drain srv fuel (lim_sub (pi_limit s) 0)
                (set_buffer [] s)) as [[rest|e] s']; [|done].
    destruct Hd as [Hfe Hinv].
    { split; [done|]. repeat split; constructor. }
    simpl in Hinv. apply seen_inv_app_l in Hinv as (Hnd & _ & Hf).
    split; [exact Hnd|exact Hf].
  - destruct e; simpl; try done. split; constructor.
Qed.

(** ** Further properties of the participants strategy *)

(** The per-response loop only touches the seen-set and the buffer: it
    adds to the seen-set, appends to the buffer, and every item it appends
    holds a user together with that user's own participant record. *)
Lemma chunk_participants_frame (users : gmap Z User) ps s :
  (forall k u, users !! k = Some u -> user_id u = k) ->
  let s' := snd (chunk_participants users ps s) in
  pi_requests s' = pi_requests s /\ pi_calls s' = pi_calls s /\
  pi_limit s' = pi_limit s /\ pi_filter_entity s' = pi_filter_entity s /\
  pi_total s' = pi_total s /\ pi_seen s ⊆ pi_seen s' /\
  exists new, pi_buffer s' = pi_buffer s ++ new /\
              Forall item_has_participant new.
Proof.
  intros Hkey. revert s; induction ps as [|p ps IH]; intros s; simpl.
  { conj_split; frame_close. }
  pm_unfold. unfold dict_get.
  destruct (users !! participant_user_id p) as [user|] eqn:Hu; simpl.
  2:{ conj_split; frame_close. }
  destruct (filter_entity_eval (pi_filter_entity s) user) as [ok|e];
    simpl.
  2:{ conj_split; frame_close. }
  destruct (negb ok || bool_decide (user_id user ∈ pi_seen s)); simpl;
    [exact (IH s)|].
  unfold buffer_append, pmodify; simpl.
  destruct (IH (set_buffer (pi_buffer s ++ [(user, Some p)])
                  (set_seen ({[participant_user_id p]} ∪ pi_seen s) s)))
    as (H1 & H2 & H3 & H4 & H5 & H6 & new & H7 & H8).
  simpl in *. conj_split; try done; [set_solver|].
  exists ((user, Some p) :: new). rewrite H7, <- app_assoc. split; [done|].
  constructor; [|done]. exists p. split; [done|]. simpl. by eapply Hkey.
Qed.

Lemma list_pop_middle {A} (pre suf : list A) (r : A) :
  list_pop (length pre) (pre ++ r :: suf) = pre ++ suf.
Proof. unfold list_pop. induction pre as [|a pre IH]; simpl; [done|]. by f_equal. Qed.

Lemma list_insert_middle {A} (pre suf : list A) (r r' : A) :
  <[length pre := r']> (pre ++ r :: suf) = pre ++ r' :: suf.
Proof. induction pre as [|a pre IH]; simpl; [done|]. by rewrite IH. Qed.

Lemma kept_requests_app reqs1 reqs2 res1 res2 :
  length reqs1 = length res1 ->
  kept_requests (reqs1 ++ reqs2) (res1 ++ res2) =
  kept_requests reqs1 res1 ++ kept_requests reqs2 res2.
Proof.
  revert res1; induction reqs1 as [|r rs IH]; intros [|res ress] Hlen;
    simpl in *; try done.
  rewrite IH by lia. by rewrite app_assoc.
Qed.

(** One step of the reversed-index loop, at position [i]. *)
Lemma chunk_response_frame i res s pre r suf :
  pi_requests s = pre ++ r :: suf -> length pre = i ->
  let s' := snd (chunk_response i res s) in
  pi_requests s' = pre ++ kept_requests [r] [res] ++ suf /\
  pi_calls s' = pi_calls s /\ pi_limit s' = pi_limit s /\
  pi_seen s ⊆ pi_seen s' /\
  exists new, pi_buffer s' = pi_buffer s ++ new /\
              Forall item_has_participant new.
Proof.
  intros Hreq <-. unfold chunk_response, kept_requests.
  destruct (bool_decide (cp_users res = [])); pm_unfold; simpl.
  - rewrite Hreq, list_pop_middle. conj_split; frame_close.
  - rewrite Hreq, list_lookup_middle by reflexivity; simpl.
    rewrite list_insert_middle.
    destruct (chunk_participants_frame (users_dict (cp_users res))
                (cp_participants res)
                (set_requests
                   (pre ++ gp_set_offset r
                       (gp_offset r + Z.of_nat (length (cp_participants res)))
                      :: suf) s) (users_dict_key (cp_users res)))
      as (H1 & H2 & H3 & _ & _ & H6 & new & H7 & H8).
    simpl in *. rewrite H1, H2, H3, H7. conj_split; try done.
    exists new. done.
Qed.

Lemma chunk_responses_frame results : forall k pre suf s,
  pi_requests s = pre ++ suf -> length pre = k -> (k <= length results)%nat ->
  let '(r, s') := chunk_responses (rev (seq 0 k)) results s in
  (r = Ok tt -> pi_requests s' = kept_requests pre (take k results) ++ suf) /\
  pi_calls s' = pi_calls s /\ pi_limit s' = pi_limit s /\
  pi_seen s ⊆ pi_seen s' /\
  exists new, pi_buffer s' = pi_buffer s ++ new /\
              Forall item_has_participant new.
Proof.
  induction k as [|k IH]; intros pre suf s Hreq Hlen Hk.
  { destruct pre; [|done]. simpl. conj_split; frame_close. }
  destruct pre as [|r pre' _] using rev_ind; [done|].
  rewrite length_app in Hlen; simpl in Hlen.
  rewrite seq_S, rev_app_distr; simpl.
  destruct (lookup_lt_is_Some_2 results k ltac:(lia)) as [res Hres].
  rewrite Hres. pm_unfold.
  rewrite <- app_assoc in Hreq; simpl in Hreq.
  destruct (chunk_response_frame k res s pre' r suf Hreq ltac:(lia))
    as (H1 & H2 & H3 & H4 & new1 & H5 & H6).
  destruct (chunk_response k res s) as [[u|e] s1] eqn:Hstep; simpl in *.
  2:{ conj_split; try done. exists new1. done. }
  specialize (IH pre' (kept_requests [r] [res] ++ suf) s1 H1 ltac:(lia) ltac:(lia)).
  destruct (chunk_responses (rev (seq 0 k)) results s1) as [r2 s2].
  destruct IH as (I1 & I2 & I3 & I4 & new2 & I5 & I6).
  split; [|conj_split; [congruence|congruence|set_solver|]].
  - intros Hok. rewrite (I1 Hok), (take_S_r _ _ _ Hres).
    rewrite kept_requests_app by (rewrite length_take; lia).
    by rewrite app_assoc.
  - exists (new1 ++ new2). rewrite I5, H5, app_assoc. split; [done|].
    by apply Forall_app.
Qed.

Lemma batched_load_frame srv s r0 rest :
  pi_requests s = r0 :: rest ->
  lim_lt (pi_limit s) (gp_offset r0) = false ->
  let r0' := gp_set_limit r0 (lim_sub_min (pi_limit s) (gp_offset r0)
                               _MAX_PARTICIPANTS_CHUNK_SIZE) in
  let '(r, s') := participants_load_next_chunk srv s in
  pi_calls s' = pi_calls s ++ [CallGetParticipants (r0' :: rest)] /\
  (forall b, r = Ok b -> b = false /\
     pi_requests s' = kept_requests (r0' :: rest)
                        (map (srv_get_participants srv) (r0' :: rest))) /\
  pi_limit s' = pi_limit s /\ pi_seen s ⊆ pi_seen s' /\
  exists new, pi_buffer s' = pi_buffer s ++ new /\
              Forall item_has_participant new.
Proof.
  intros Hreq Hin r0'. unfold participants_load_next_chunk. pm_unfold.
  rewrite Hreq. fold r0'.
  set (reqs := r0' :: rest).
  set (results := map (srv_get_participants srv) reqs).
  remember (chunk_responses (rev (seq 0 (length reqs))) results) as CR
    eqn:HCR.
  simpl. rewrite Hin. simpl.
  set (s1 := log_call (CallGetParticipants reqs) (set_requests reqs s)).
  pose proof (chunk_responses_frame results (length reqs) reqs [] s1
                ltac:(by rewrite app_nil_r) eq_refl
                ltac:(unfold results; rewrite length_map; lia)) as Hf.
  rewrite <- HCR in Hf.
  destruct (CR s1) as [[u|e] s2]; simpl in *;
    destruct Hf as (F1 & F2 & F3 & F4 & F5).
  - rewrite F2, F3. conj_split; try done.
    + intros b Hb. injection Hb as <-. split; [done|].
      rewrite (F1 ltac:(by destruct u)), app_nil_r.
      unfold results. by rewrite take_ge by (rewrite length_map; lia).
  - rewrite F2, F3. conj_split; try done; intros b Hb; discriminate.
Qed.

Lemma chunk_responses_empty_ok results idx s :
  Forall (fun res => cp_users res = []) results ->
  Forall (fun i => (i < length results)%nat) idx ->
  fst (chunk_responses idx results s) = Ok tt.
Proof.
  intros Hall. revert s; induction idx as [|i idx IH]; intros s Hidx;
    simpl; [done|].
  inversion Hidx as [|? ? Hi Hidx']; subst.
  destruct (lookup_lt_is_Some_2 results i Hi) as [res Hres]. rewrite Hres.
  assert (He : cp_users res = []) by exact (Forall_lookup_1 _ _ _ _ Hall Hres).
  unfold chunk_response. rewrite bool_decide_eq_true_2 by done.
  pm_unfold. simpl. by apply IH.
Qed.

(** *** Extra properties of [_ParticipantsIter._load_next_chunk] *)

(** With no pending request the load reports exhaustion at once and leaves
    the iterator as it is: no remote call, no item. *)
Theorem load_no_requests_exhausted (srv : Server) (s : PIter)
    (Hnone : pi_requests s = []) :
  participants_load_next_chunk srv s = (Ok true, s).
Proof.
  unfold participants_load_next_chunk. pm_unfold. simpl. by rewrite Hnone.
Qed.

Lemma load_no_requests_exhausted_witness :
  pi_requests (piter_new LimInf) = [] /\
  participants_load_next_chunk (group_server [] []) (piter_new LimInf) =
    (Ok true, piter_new LimInf).
Proof.
  split; [reflexivity|].
  exact (load_no_requests_exhausted (group_server [] []) (piter_new LimInf)
           eq_refl).
Defined.

(** When the first request's offset is already past the limit, the load
    reports exhaustion without any remote call and without touching the
    seen-set or the buffer; the limit it has just written into that request
    is negative. *)
Theorem load_offset_past_limit_no_call (srv : Server) (s : PIter)
    (r0 : GetParticipantsRequest) (rest : list GetParticipantsRequest)
    (Hreq : pi_requests s = r0 :: rest)
    (Hpast : lim_lt (pi_limit s) (gp_offset r0) = true) :
  let '(r, s') := participants_load_next_chunk srv s in
  r = Ok true /\ pi_calls s' = pi_calls s /\ pi_buffer s' = pi_buffer s /\
  pi_seen s' = pi_seen s /\
  exists r0', pi_requests s' = r0' :: rest /\ gp_offset r0' = gp_offset r0 /\
              gp_limit r0' < 0.
Proof.
  unfold participants_load_next_chunk. pm_unfold. simpl. rewrite Hreq.
  simpl. rewrite Hpast. simpl. conj_split; try done.
  eexists; conj_split; [reflexivity|reflexivity|]. simpl.
  destruct (pi_limit s) as [n|]; simpl in *; [|discriminate].
  apply Z.ltb_lt in Hpast. lia.
Qed.

Lemma load_offset_past_limit_no_call_witness :
  let s := set_requests [demo_request 5] (piter_new (LimFin 3)) in
  (pi_requests s = [demo_request 5] /\
   lim_lt (pi_limit s) (gp_offset (demo_request 5)) = true) /\
  let '(r, s') := participants_load_next_chunk (group_server [] []) s in
  r = Ok true /\ pi_calls s' = pi_calls s /\ pi_buffer s' = pi_buffer s /\
  pi_seen s' = pi_seen s /\
  exists r0', pi_requests s' = r0' :: [] /\
              gp_offset r0' = gp_offset (demo_request 5) /\ gp_limit r0' < 0.
Proof.
  split; [split; reflexivity|].
  exact (load_offset_past_limit_no_call (group_server [] [])
           (set_requests [demo_request 5] (piter_new (LimFin 3)))
           (demo_request 5) [] eq_refl eq_refl).
Defined.

(** Otherwise the load sends all pending requests in one batched call,
    the first one limited to [min(limit - offset, 200)].  When it returns,
    the requests whose answer had no users are dropped and the others have
    advanced their offset by the number of participants received, in their
    original order; the seen-set only grows and the buffer only receives
    users paired with their own participant record. *)
Theorem load_batched_call (srv : Server) (s : PIter)
    (r0 : GetParticipantsRequest) (rest : list GetParticipantsRequest)
    (Hreq : pi_requests s = r0 :: rest)
    (Hin : lim_lt (pi_limit s) (gp_offset r0) = false) :
  let r0' := gp_set_limit r0 (lim_sub_min (pi_limit s) (gp_offset r0)
                               _MAX_PARTICIPANTS_CHUNK_SIZE) in
  let '(r, s') := participants_load_next_chunk srv s in
  pi_calls s' = pi_calls s ++ [CallGetParticipants (r0' :: rest)] /\
  (forall b, r = Ok b -> b = false /\
     pi_requests s' = kept_requests (r0' :: rest)
                        (map (srv_get_participants srv) (r0' :: rest))) /\
  pi_limit s' = pi_limit s /\ pi_seen s ⊆ pi_seen s' /\
  exists new, pi_buffer s' = pi_buffer s ++ new /\
              Forall item_has_participant new.
Proof. exact (batched_load_frame srv s r0 rest Hreq Hin). Qed.

Lemma load_batched_call_witness :
  let s := set_requests [demo_request 0; demo_request 4] (piter_new LimInf) in
  let srv := group_server [mkParticipant 1] [bob] in
  (pi_requests s = [demo_request 0; demo_request 4] /\
   lim_lt (pi_limit s) (gp_offset (demo_request 0)) = false) /\
  let r0' := gp_set_limit (demo_request 0)
               (lim_sub_min (pi_limit s) (gp_offset (demo_request 0))
                  _MAX_PARTICIPANTS_CHUNK_SIZE) in
  let '(r, s') := participants_load_next_chunk srv s in
  pi_calls s' = pi_calls s ++ [CallGetParticipants (r0' :: [demo_request 4])] /\
  (forall b, r = Ok b -> b = false /\
     pi_requests s' = kept_requests (r0' :: [demo_request 4])
                        (map (srv_get_participants srv)
                           (r0' :: [demo_request 4]))) /\
  pi_limit s' = pi_limit s /\ pi_seen s ⊆ pi_seen s' /\
  exists new, pi_buffer s' = pi_buffer s ++ new /\
              Forall item_has_participant new.
Proof.
  split; [split; reflexivity|].
  exact (load_batched_call (group_server [mkParticipant 1] [bob])
           (set_requests [demo_request 0; demo_request 4] (piter_new LimInf))
           (demo_request 0) [demo_request 4] eq_refl eq_refl).
Defined.

(** Whatever the answers, also when the load raises, the limit is kept,
    the seen-set only grows, the buffer only grows at its end, and every
    item the load adds is a user paired with its own participant record. *)
Theorem load_next_chunk_monotone (srv : Server) (s : PIter) :
  let s' := snd (participants_load_next_chunk srv s) in
  pi_limit s' = pi_limit s /\ pi_seen s ⊆ pi_seen s' /\
  exists new, pi_buffer s' = pi_buffer s ++ new /\
              Forall item_has_participant new.
Proof.
  destruct (pi_requests s) as [|r0 rest] eqn:Hreq.
  - unfold participants_load_next_chunk. pm_unfold. simpl. rewrite Hreq.
    simpl. conj_split; frame_close.
  - destruct (lim_lt (pi_limit s) (gp_offset r0)) eqn:Hin.
    + unfold participants_load_next_chunk. pm_unfold. simpl. rewrite Hreq.
      simpl. rewrite Hin. simpl. conj_split; frame_close.
    + pose proof (batched_load_frame srv s r0 rest Hreq Hin) as Hf.
      simpl in Hf. destruct (participants_load_next_chunk srv s) as [r s'].
      destruct Hf as (_ & _ & Hf). exact Hf.
Qed.

(** When no request of the batch sent (the first request with its limit
    set, and the pending ones) gets any user back, the one batched call
    drops every request, and the next load reports exhaustion without a
    call. *)
Theorem load_empty_answers_then_exhausted (srv : Server) (s : PIter)
    (r0 : GetParticipantsRequest) (rest : list GetParticipantsRequest)
    (Hreq : pi_requests s = r0 :: rest)
    (Hin : lim_lt (pi_limit s) (gp_offset r0) = false)
    (Hempty : forall req,
       In req (gp_set_limit r0 (lim_sub_min (pi_limit s) (gp_offset r0)
                                  _MAX_PARTICIPANTS_CHUNK_SIZE) :: rest) ->
       cp_users (srv_get_participants srv req) = []) :
  let '(r, s') := participants_load_next_chunk srv s in
  r = Ok false /\ pi_requests s' = [] /\ length (pi_calls s') = S (length (pi_calls s)) /\
  participants_load_next_chunk srv s' = (Ok true, s').
Proof.
  pose proof (batched_load_frame srv s r0 rest Hreq Hin) as Hf.
  set (r0' := gp_set_limit r0 (lim_sub_min (pi_limit s) (gp_offset r0)
                                _MAX_PARTICIPANTS_CHUNK_SIZE)) in Hf.
  assert (Hok : fst (participants_load_next_chunk srv s) = Ok false).
  { unfold participants_load_next_chunk. pm_unfold.
    rewrite Hreq. fold r0'.
    remember (chunk_responses (rev (seq 0 (length (r0' :: rest))))
                (map (srv_get_participants srv) (r0' :: rest))) as CR eqn:HCR.
    simpl. rewrite Hin. simpl.
    assert (HA : Forall (fun res => cp_users res = [])
                   (map (srv_get_participants srv) (r0' :: rest))).
    { apply Forall_forall. intros res Hres.
      apply list_elem_of_In, in_map_iff in Hres as (req & <- & Hreq').
      by apply Hempty. }
    assert (HB : Forall (fun i => (i < length (map (srv_get_participants srv)
                                                 (r0' :: rest)))%nat)
                   (rev (seq 0 (length (r0' :: rest))))).
    { apply Forall_forall. intros i Hi. apply list_elem_of_In in Hi.
      rewrite <- in_rev in Hi. apply in_seq in Hi. rewrite length_map. lia. }
    pose proof (chunk_responses_empty_ok _ _
                  (log_call (CallGetParticipants (r0' :: rest))
                     (set_requests (r0' :: rest) s)) HA HB) as He.
    rewrite <- HCR in He.
    destruct (CR (log_call (CallGetParticipants (r0' :: rest))
                    (set_requests (r0' :: rest) s))) as [[u|e] s2];
      simpl in *; [done|discriminate]. }
  destruct (participants_load_next_chunk srv s) as [r s'].
  simpl in Hok; subst r.
  destruct Hf as (Hcalls & Hreqs & _).
  destruct (Hreqs false eq_refl) as [_ Hr].
  assert (Hkept : forall reqs,
             (forall req, In req reqs ->
                cp_users (srv_get_participants srv req) = []) ->
             kept_requests reqs (map (srv_get_participants srv) reqs) = []).
  { induction reqs as [|q qs IH]; intros Hq; [done|]. simpl.
    rewrite bool_decide_eq_true_2 by (apply Hq; by left).
    apply IH. intros req Hr'. apply Hq. by right. }
  rewrite Hkept in Hr by exact Hempty.
  conj_split; [done|done| |].
  - rewrite Hcalls, length_app. simpl. lia.
  - unfold participants_load_next_chunk. pm_unfold. simpl. by rewrite Hr.
Qed.

Lemma load_empty_answers_then_exhausted_witness :
  let s := set_requests [demo_request 0; demo_request 4] (piter_new LimInf) in
  (pi_requests s = [demo_request 0; demo_request 4] /\
   lim_lt (pi_limit s) (gp_offset (demo_request 0)) = false /\
   forall req,
     In req (gp_set_limit (demo_request 0)
               (lim_sub_min (pi_limit s) (gp_offset (demo_request 0))
                  _MAX_PARTICIPANTS_CHUNK_SIZE) :: [demo_request 4]) ->
     cp_users (srv_get_participants (group_server [] []) req) = []) /\
  let '(r, s') := participants_load_next_chunk (group_server [] []) s in
  r = Ok false /\ pi_requests s' = [] /\
  length (pi_calls s') = S (length (pi_calls s)) /\
  participants_load_next_chunk (group_server [] []) s' = (Ok true, s').
Proof.
  assert (He : forall req,
             In req (gp_set_limit (demo_request 0)
                       (lim_sub_min LimInf (gp_offset (demo_request 0))
                          _MAX_PARTICIPANTS_CHUNK_SIZE) :: [demo_request 4]) ->
             cp_users (srv_get_participants (group_server [] []) req) = []).
  { intros req _. simpl. by destruct (gp_offset req =? 0). }
  split; [split; [reflexivity|split; [reflexivity|exact He]]|].
  exact (load_empty_answers_then_exhausted (group_server [] [])
           (set_requests [demo_request 0; demo_request 4] (piter_new LimInf))
           (demo_request 0) [demo_request 4] eq_refl eq_refl He).
Defined.

Lemma users_dict_fold_in (us : list User) (m : gmap Z User) k u :
  fold_left (fun m u => <[user_id u := u]> m) us m !! k = Some u ->
  m !! k = Some u \/ In u us.
Proof.
  revert m; induction us as [|u0 us IH]; intros m Hk; simpl in *; [by left|].
  destruct (IH _ Hk) as [H|H]; [|by right; right].
  apply lookup_insert_Some in H as [[_ <-]|[_ H]]; [by right; left|by left].
Qed.

Lemma users_dict_in (us : list User) k u :
  users_dict us !! k = Some u -> In u us.
Proof.
  intros Hk. destruct (users_dict_fold_in us ∅ k u Hk) as [H|H]; [|done].
  by rewrite lookup_empty in H.
Qed.

Lemma users_dict_fold_some (us : list User) (m : gmap Z User) k :
  is_Some (m !! k) \/ (exists u, In u us /\ user_id u = k) ->
  is_Some (fold_left (fun m u => <[user_id u := u]> m) us m !! k).
Proof.
  revert m; induction us as [|u0 us IH]; intros m Hk; simpl.
  { destruct Hk as [H|(u & [] & _)]; done. }
  apply IH. destruct (decide (user_id u0 = k)) as [<-|Hne].
  - left. rewrite lookup_insert_eq. by eexists.
  - destruct Hk as [H|(u & [<-|Hin] & Hid)]; [|done|].
    + left. by rewrite lookup_insert_ne.
    + right. by exists u.
Qed.

Lemma users_dict_has (us : list User) k :
  (exists u, In u us /\ user_id u = k) -> is_Some (users_dict us !! k).
Proof. intros H. apply users_dict_fold_some. by right. Qed.

Lemma init_chat_participants_all (us : list User) ps s :
  pi_filter_entity s = FilterAll ->
  Forall (fun p => exists u, In u us /\ user_id u = participant_user_id p) ps ->
  let '(r, s') := init_chat_participants (users_dict us) ps s in
  r = Ok tt /\ pi_calls s' = pi_calls s /\ pi_total s' = pi_total s /\
  pi_requests s' = pi_requests s /\
  exists new, pi_buffer s' = pi_buffer s ++ new /\ map snd new = map Some ps /\
              Forall (fun x => In (fst x) us /\ item_has_participant x) new.
Proof.
  revert s; induction ps as [|p ps IH]; intros s Hfe Hall; simpl.
  { conj_split; try done. exists []. by rewrite app_nil_r. }
  inversion Hall as [|? ? Hp Hall']; subst.
  destruct (users_dict_has us (participant_user_id p) Hp) as [user Hu].
  pm_unfold. unfold dict_get. rewrite Hu. simpl. rewrite Hfe. simpl.
  unfold buffer_append, pmodify. simpl.
  specialize (IH (set_buffer (pi_buffer s ++ [(user, Some p)]) s) Hfe Hall').
  destruct (init_chat_participants (users_dict us) ps
              (set_buffer (pi_buffer s ++ [(user, Some p)]) s)) as [r s'].
  destruct IH as (H1 & H2 & H3 & H4 & new & H5 & H6 & H7). simpl in *.
  conj_split; try done.
  exists ((user, Some p) :: new). rewrite H5, <- app_assoc. conj_split.
  - done.
  - simpl. by rewrite H6.
  - constructor; [|done]. split; [by eapply users_dict_in|].
    exists p. split; [done|]. simpl. by eapply users_dict_key.
Qed.

Lemma init_chat_participants_missing (us : list User) ps s :
  pi_filter_entity s = FilterAll ->
  Exists (fun p => forall u, In u us -> user_id u <> participant_user_id p) ps ->
  fst (init_chat_participants (users_dict us) ps s) = Err KeyError.
Proof.
  revert s; induction ps as [|p ps IH]; intros s Hfe Hex; simpl.
  { inversion Hex. }
  pm_unfold. unfold dict_get.
  destruct (users_dict us !! participant_user_id p) as [user|] eqn:Hu;
    simpl; [|done].
  rewrite Hfe. simpl. unfold buffer_append, pmodify. simpl.
  apply IH; [done|].
  inversion Hex as [? ? Hp|? ? Hex']; subst; [|done].
  exfalso. apply (Hp user); [by eapply users_dict_in|by eapply users_dict_key].
Qed.

Lemma filter_entity_eval_cases f u :
  filter_entity_eval f u = Ok true \/ filter_entity_eval f u = Ok false \/
  filter_entity_eval f u = Err AttributeError.
Proof.
  destruct f as [|search]; simpl; [by left|].
  destruct (py_contains _ _); [by left|].
  destruct (py_truthy_str _); [|by right; right].
  destruct (py_contains _ _); [by left|by right; left].
Qed.

(** *** Extra properties of [_ParticipantsIter._init] *)

(** Small group whose member list is hidden: one full-chat call, the
    total becomes 0, no item is buffered and no request is prepared, and
    [StopAsyncIteration] ends the enumeration. *)
Theorem chat_init_forbidden (srv : Server) (chat_id : Z)
    (filter_arg : FilterArg) (search : string) (aggressive : bool) (s : PIter)
    (Hforb : cf_participants (srv_full_chat srv chat_id) =
             ChatParticipantsForbidden) :
  let '(r, s') := participants_init srv (InputPeerChat chat_id) filter_arg
                    search aggressive s in
  r = Err StopAsyncIteration /\ pi_total s' = Some 0 /\
  pi_calls s' = pi_calls s ++ [CallGetFullChat chat_id] /\
  pi_buffer s' = pi_buffer s /\ pi_requests s' = [].
Proof.
  unfold participants_init. pm_unfold. simpl. rewrite Hforb. simpl.
  conj_split; reflexivity.
Qed.

Lemma chat_init_forbidden_witness :
  cf_participants (srv_full_chat forbidden_server 5) =
    ChatParticipantsForbidden /\
  let '(r, s') := participants_init forbidden_server (InputPeerChat 5)
                    FilterNone "al" false (piter_new LimInf) in
  r = Err StopAsyncIteration /\ pi_total s' = Some 0 /\
  pi_calls s' = pi_calls (piter_new LimInf) ++ [CallGetFullChat 5] /\
  pi_buffer s' = pi_buffer (piter_new LimInf) /\ pi_requests s' = [].
Proof.
  split; [reflexivity|].
  exact (chat_init_forbidden forbidden_server 5 FilterNone "al" false
           (piter_new LimInf) eq_refl).
Defined.

(** Small group without a search, every participant's user present in the
    answer: one full-chat call, the total is the number of participants,
    and the buffer receives one item per participant, in order, each the
    answer's user with that id paired with the participant record; no
    duplicate is removed, since this branch keeps no seen-set. *)
Theorem chat_init_members (srv : Server) (chat_id : Z)
    (filter_arg : FilterArg) (aggressive : bool) (ps : list Participant)
    (s : PIter)
    (Hps : cf_participants (srv_full_chat srv chat_id) = ChatParticipants ps)
    (Hall : Forall (fun p => exists u, In u (cf_users (srv_full_chat srv chat_id))
                                 /\ user_id u = participant_user_id p) ps) :
  let '(r, s') := participants_init srv (InputPeerChat chat_id) filter_arg
                    "" aggressive s in
  r = Ok true /\ pi_total s' = Some (Z.of_nat (length ps)) /\
  pi_calls s' = pi_calls s ++ [CallGetFullChat chat_id] /\
  pi_requests s' = [] /\
  exists new, pi_buffer s' = pi_buffer s ++ new /\ map snd new = map Some ps /\
    Forall (fun x => In (fst x) (cf_users (srv_full_chat srv chat_id)) /\
                     item_has_participant x) new.
Proof.
  unfold participants_init. pm_unfold. simpl. rewrite Hps. simpl.
  set (s1 := set_total (Z.of_nat (length ps))
               (log_call (CallGetFullChat chat_id)
                  (set_requests [] (set_filter_entity FilterAll s)))).
  pose proof (init_chat_participants_all (cf_users (srv_full_chat srv chat_id))
                ps s1 eq_refl Hall) as H.
  destruct (init_chat_participants _ ps s1) as [r s'].
  destruct H as (-> & H2 & H3 & H4 & H5). simpl.
  rewrite H2, H3, H4. conj_split; done.
Qed.

Lemma chat_init_members_witness :
  let srv := group_server [mkParticipant 1; mkParticipant 2; mkParticipant 1]
               [bob; alice] in
  (cf_participants (srv_full_chat srv 5) =
     ChatParticipants [mkParticipant 1; mkParticipant 2; mkParticipant 1] /\
   Forall (fun p => exists u, In u (cf_users (srv_full_chat srv 5))
                              /\ user_id u = participant_user_id p)
     [mkParticipant 1; mkParticipant 2; mkParticipant 1]) /\
  let '(r, s') := participants_init srv (InputPeerChat 5) FilterNone
                    "" false (piter_new LimInf) in
  r = Ok true /\ pi_total s' = Some 3 /\
  pi_calls s' = pi_calls (piter_new LimInf) ++ [CallGetFullChat 5] /\
  pi_requests s' = [] /\
  exists new, pi_buffer s' = pi_buffer (piter_new LimInf) ++ new /\
    map snd new = map Some [mkParticipant 1; mkParticipant 2; mkParticipant 1] /\
    Forall (fun x => In (fst x) (cf_users (srv_full_chat srv 5)) /\
                     item_has_participant x) new.
Proof.
  assert (Hall : Forall (fun p => exists u, In u [bob; alice]
                                    /\ user_id u = participant_user_id p)
                   [mkParticipant 1; mkParticipant 2; mkParticipant 1]).
  { repeat constructor; [exists bob|exists alice|exists bob];
      simpl; split; auto. }
  split; [split; [reflexivity|exact Hall]|].
  exact (chat_init_members
           (group_server [mkParticipant 1; mkParticipant 2; mkParticipant 1]
              [bob; alice]) 5 FilterNone false
           [mkParticipant 1; mkParticipant 2; mkParticipant 1]
           (piter_new LimInf) eq_refl Hall).
Defined.

(** Small group without a search where some participant's user is missing
    from the answer: [users[participant.user_id]] raises [KeyError]. *)
Theorem chat_init_missing_user (srv : Server) (chat_id : Z)
    (filter_arg : FilterArg) (aggressive : bool) (ps : list Participant)
    (s : PIter)
    (Hps : cf_participants (srv_full_chat srv chat_id) = ChatParticipants ps)
    (Hmiss : Exists (fun p => forall u, In u (cf_users (srv_full_chat srv chat_id))
                                 -> user_id u <> participant_user_id p) ps) :
  fst (participants_init srv (InputPeerChat chat_id) filter_arg "" aggressive s)
    = Err KeyError.
Proof.
  unfold participants_init. pm_unfold. simpl. rewrite Hps. simpl.
  pose proof (init_chat_participants_missing
                (cf_users (srv_full_chat srv chat_id)) ps
                (set_total (Z.of_nat (length ps))
                   (log_call (CallGetFullChat chat_id)
                      (set_requests [] (set_filter_entity FilterAll s))))
                eq_refl Hmiss) as H.
  destruct (init_chat_participants _ ps _) as [[u|e] s']; simpl in *;
    congruence.
Qed.

Lemma chat_init_missing_user_witness :
  let srv := group_server [mkParticipant 1; mkParticipant 3] [bob; alice] in
  (cf_participants (srv_full_chat srv 5) =
     ChatParticipants [mkParticipant 1; mkParticipant 3] /\
   Exists (fun p => forall u, In u (cf_users (srv_full_chat srv 5))
                              -> user_id u <> participant_user_id p)
     [mkParticipant 1; mkParticipant 3]) /\
  fst (participants_init srv (InputPeerChat 5) FilterNone "" false
         (piter_new LimInf)) = Err KeyError.
Proof.
  assert (Hmiss : Exists (fun p => forall u, In u [bob; alice]
                                     -> user_id u <> participant_user_id p)
                    [mkParticipant 1; mkParticipant 3]).
  { apply Exists_cons_tl, Exists_cons_hd. simpl.
    intros u [<-|[<-|[]]]; simpl; lia. }
  split; [split; [reflexivity|exact Hmiss]|].
  exact (chat_init_missing_user
           (group_server [mkParticipant 1; mkParticipant 3] [bob; alice])
           5 FilterNone false [mkParticipant 1; mkParticipant 3]
           (piter_new LimInf) eq_refl Hmiss).
Defined.

(** Single user with a zero limit: no remote call, no item, total 1. *)
Theorem user_init_zero_limit (srv : Server) (uid : Z)
    (filter_arg : FilterArg) (search : string) (aggressive : bool) (s : PIter)
    (Hzero : pi_limit s = LimFin 0) :
  let '(r, s') := participants_init srv (InputPeerUser uid) filter_arg
                    search aggressive s in
  r = Ok true /\ pi_calls s' = pi_calls s /\ pi_buffer s' = pi_buffer s /\
  pi_total s' = Some 1.
Proof.
  unfold participants_init. pm_unfold. simpl. rewrite Hzero. simpl.
  conj_split; reflexivity.
Qed.

Lemma user_init_zero_limit_witness :
  pi_limit (piter_new (LimFin 0)) = LimFin 0 /\
  let '(r, s') := participants_init (group_server [] []) (InputPeerUser 2)
                    FilterNone "al" false (piter_new (LimFin 0)) in
  r = Ok true /\ pi_calls s' = pi_calls (piter_new (LimFin 0)) /\
  pi_buffer s' = pi_buffer (piter_new (LimFin 0)) /\ pi_total s' = Some 1.
Proof.
  split; [reflexivity|].
  exact (user_init_zero_limit (group_server [] []) 2 FilterNone "al" false
           (piter_new (LimFin 0)) eq_refl).
Defined.

(** Single user with any non-zero limit (a negative one included), when
    [get_entity] returns the user: exactly one entity fetch, total 1, and
    at most the fetched user (with no participant record) is buffered;
    without a search it always is, and [_init] returns [True]. *)
Theorem user_init_single_fetch (srv : Server) (uid : Z)
    (filter_arg : FilterArg) (search : string) (aggressive : bool) (s : PIter)
    (Hne : lim_ne0 (pi_limit s) = true) :
  let user := srv_get_entity srv (InputPeerUser uid) in
  let '(r, s') := participants_init srv (InputPeerUser uid) filter_arg
                    search aggressive s in
  pi_calls s' = pi_calls s ++ [CallGetEntity (InputPeerUser uid)] /\
  pi_total s' = Some 1 /\
  (pi_buffer s' = pi_buffer s \/ pi_buffer s' = pi_buffer s ++ [(user, None)]) /\
  (search = ""%string -> r = Ok true /\
                         pi_buffer s' = pi_buffer s ++ [(user, None)]).
Proof.
  cbv zeta. unfold participants_init. pm_unfold. simpl. rewrite Hne. simpl.
  match goal with
  | |- context [filter_entity_eval ?f ?u] =>
      destruct (filter_entity_eval_cases f u) as [H|[H|H]]; rewrite H
  end; simpl; unfold buffer_append, pmodify; simpl;
    conj_split; auto; intros ->; simpl in H; discriminate H.
Qed.

Lemma user_init_single_fetch_witness :
  lim_ne0 (pi_limit (piter_new (LimFin (-1)))) = true /\
  let user := srv_get_entity (group_server [] []) (InputPeerUser 2) in
  let '(r, s') := participants_init (group_server [] []) (InputPeerUser 2)
                    FilterNone "" false (piter_new (LimFin (-1))) in
  pi_calls s' = pi_calls (piter_new (LimFin (-1))) ++
                  [CallGetEntity (InputPeerUser 2)] /\
  pi_total s' = Some 1 /\
  (pi_buffer s' = pi_buffer (piter_new (LimFin (-1))) \/
   pi_buffer s' = pi_buffer (piter_new (LimFin (-1))) ++ [(user, None)]) /\
  (""%string = ""%string -> r = Ok true /\
     pi_buffer s' = pi_buffer (piter_new (LimFin (-1))) ++ [(user, None)]).
Proof.
  split; [reflexivity|].
  exact (user_init_single_fetch (group_server [] []) 2 FilterNone "" false
           (piter_new (LimFin (-1))) eq_refl).
Defined.

(** Channel with a filter and a search: the search is not sent to the
    server but applied locally, lower-cased; one request with the filter is
    prepared and the seen-set is reset. *)
Theorem channel_filter_local_search (srv : Server) (ch : Z)
    (filter_arg : FilterArg) (f : ParticipantsFilter) (search : string)
    (aggressive : bool) (s : PIter)
    (Hf : instantiate_filter filter_arg = Some f)
    (Hs : py_truthy_str search = true)
    (Hpos : lim_le0 (pi_limit s) = false) :
  let '(r, s') := participants_init srv (InputPeerChannel ch) filter_arg
                    search aggressive s in
  r = Ok false /\ pi_filter_entity s' = FilterSearch (py_lower search) /\
  pi_requests s' = [mkGetParticipants (InputPeerChannel ch) f 0
                      _MAX_PARTICIPANTS_CHUNK_SIZE 0] /\
  pi_seen s' = ∅ /\
  pi_calls s' = pi_calls s ++ [CallGetFullChannel (InputPeerChannel ch)].
Proof.
  unfold participants_init. rewrite Hf, Hs. pm_unfold. simpl.
  rewrite Hpos. simpl. rewrite andb_false_r. simpl. conj_split; reflexivity.
Qed.

Lemma channel_filter_local_search_witness :
  (instantiate_filter (FilterClass ClsBots) = Some ChannelParticipantsBots /\
   py_truthy_str "Al" = true /\
   lim_le0 (pi_limit (piter_new (LimFin 10))) = false) /\
  let '(r, s') := participants_init (group_server [] []) (InputPeerChannel 8)
                    (FilterClass ClsBots) "Al" true (piter_new (LimFin 10)) in
  r = Ok false /\ pi_filter_entity s' = FilterSearch (py_lower "Al") /\
  pi_requests s' = [mkGetParticipants (InputPeerChannel 8)
                      ChannelParticipantsBots 0 _MAX_PARTICIPANTS_CHUNK_SIZE 0] /\
  pi_seen s' = ∅ /\
  pi_calls s' = pi_calls (piter_new (LimFin 10)) ++
                  [CallGetFullChannel (InputPeerChannel 8)].
Proof.
  split; [split; [reflexivity|split; reflexivity]|].
  exact (channel_filter_local_search (group_server [] []) 8
           (FilterClass ClsBots) ChannelParticipantsBots "Al" true
           (piter_new (LimFin 10)) eq_refl eq_refl eq_refl).
Defined.

(** Channel without a filter: the local predicate accepts every user,
    whatever the search (it goes to the server) and even when [_init]
    stops on a non-positive limit. *)
Theorem channel_no_filter_accepts_all (srv : Server) (ch : Z)
    (search : string) (aggressive : bool) (s : PIter) :
  pi_filter_entity (snd (participants_init srv (InputPeerChannel ch)
                           FilterNone search aggressive s)) = FilterAll.
Proof.
  unfold participants_init. simpl. rewrite andb_false_r. pm_unfold. simpl.
  destruct (lim_le0 (pi_limit s)); simpl; [done|].
  by destruct aggressive.
Qed.

(** *** Extra properties of [_AdminLogIter._load_next_chunk] *)

Lemma entities_dict_fold_some (xs : list Entity) (m : gmap Z Entity) k :
  is_Some (m !! k) \/ (exists x, In x xs /\ ent_peer_id x = k) ->
  is_Some (fold_left (fun m x => <[ent_peer_id x := x]> m) xs m !! k).
Proof.
  revert m; induction xs as [|x0 xs IH]; intros m Hk; simpl.
  { destruct Hk as [H|(x & [] & _)]; done. }
  apply IH. destruct (decide (ent_peer_id x0 = k)) as [<-|Hne].
  - left. rewrite lookup_insert_eq. by eexists.
  - destruct Hk as [H|(x & [<-|Hin] & Hid)]; [|done|].
    + left. by rewrite lookup_insert_ne.
    + right. by exists x.
Qed.

(** A chunk load keeps the target, the search text, [min_id], the events
    filter and the admins of the request; it appends one wrapped event per
    event of the answer, in the answer's order, and each wrapped event's
    table resolves every user and chat of the answer by its peer id. *)
Theorem admin_log_load_frame (srv : GetAdminLogRequest -> AdminLogResults)
    (left : Limit) (it : AIter) :
  let req := admin_log_chunk_request left it in
  let res := srv req in
  let q0 := ai_request it in
  let q := ai_request (snd (admin_log_load_next_chunk srv left it)) in
  al_channel q = al_channel q0 /\ al_q q = al_q q0 /\
  al_min_id q = al_min_id q0 /\ al_events_filter q = al_events_filter q0 /\
  al_admins q = al_admins q0 /\
  exists new, ai_buffer (snd (admin_log_load_next_chunk srv left it)) =
                ai_buffer it ++ new /\
    map le_original new = r_events res /\
    Forall (fun le => forall x, In x (r_users res ++ r_chats res) ->
                         is_Some (le_entities le !! ent_peer_id x)) new.
Proof.
  cbv zeta. unfold admin_log_load_next_chunk. simpl.
  conj_split; try reflexivity.
  eexists. conj_split; [reflexivity| |].
  - rewrite map_map. simpl. apply map_id.
  - apply Forall_forall. intros le Hle x Hx.
    apply list_elem_of_In, in_map_iff in Hle as (ev & <- & _). simpl.
    apply entities_dict_fold_some. right. by exists x.
Qed.

(** An empty answer to a request with a positive limit ends the
    enumeration, adds nothing and resets [max_id] to 0. *)
Theorem admin_log_empty_answer_halts
    (srv : GetAdminLogRequest -> AdminLogResults) (left : Limit) (it : AIter)
    (Hempty : r_events (srv (admin_log_chunk_request left it)) = [])
    (Hpos : 0 < lim_sub_min left 0 _MAX_ADMIN_LOG_CHUNK_SIZE) :
  let '(fin, it') := admin_log_load_next_chunk srv left it in
  fin = true /\ ai_buffer it' = ai_buffer it /\ al_max_id (ai_request it') = 0.
Proof.
  unfold admin_log_load_next_chunk. cbv zeta. rewrite Hempty. simpl.
  conj_split.
  - apply Z.ltb_lt. exact Hpos.
  - apply app_nil_r.
  - reflexivity.
Qed.

Lemma admin_log_empty_answer_halts_witness :
  let it := mkAIter (al_set_max_id (ai_request admin_log_demo_iter) 1) [] [] in
  (r_events (admin_log_demo_server (admin_log_chunk_request LimInf it)) = [] /\
   0 < lim_sub_min LimInf 0 _MAX_ADMIN_LOG_CHUNK_SIZE) /\
  let '(fin, it') := admin_log_load_next_chunk admin_log_demo_server LimInf it in
  fin = true /\ ai_buffer it' = ai_buffer it /\ al_max_id (ai_request it') = 0.
Proof.
  split; [split; [reflexivity|reflexivity]|].
  exact (admin_log_empty_answer_halts admin_log_demo_server LimInf
           (mkAIter (al_set_max_id (ai_request admin_log_demo_iter) 1) [] [])
           eq_refl eq_refl).
Defined.

(** *** Extra properties of [ChatMethods.action] *)

Lemma ascii_lower_idem (c : ascii) : ascii_lower (ascii_lower c) = ascii_lower c.
Proof.
  destruct c as [[] [] [] [] [] [] [] []]; vm_compute; reflexivity.
Qed.

Lemma py_lower_idem (s : string) : py_lower (py_lower s) = py_lower s.
Proof.
  induction s as [|c s IH]; simpl; [done|]. by rewrite ascii_lower_idem, IH.
Qed.

Lemma find_key_unique (l : list (string * SendMessageAction)) k a :
  NoDup (map fst l) -> In (k, a) l ->
  find (fun kv => String.eqb (fst kv) k) l = Some (k, a).
Proof.
  induction l as [|[k' a'] l IH]; intros Hnd Hin; simpl in *; [done|].
  inversion Hnd as [|? ? Hnotin Hnd']; subst.
  destruct Hin as [Heq|Hin].
  - injection Heq as -> ->. by rewrite String.eqb_refl.
  - destruct (String.eqb_spec k' k) as [->|Hne]; [|by apply IH].
    exfalso. apply Hnotin. apply list_elem_of_In, in_map_iff.
    by exists (k, a).
Qed.

Lemma str_mapping_keys_nodup : NoDup (map fst _str_mapping).
Proof. apply NoDup_ListNoDup. vm_compute. repeat constructor; simpl; intuition discriminate. Qed.

(** The action tag is looked up case-insensitively: a tag and its
    lower-cased form give the same outcome, whatever the table holds. *)
Theorem action_tag_case_insensitive (table : list (string * SendMessageAction))
    (entity : InputPeer) (s : string) (delay : Z) (auto_cancel : bool) :
  chat_methods_action table entity (ActionStr s) delay auto_cancel =
  chat_methods_action table entity (ActionStr (py_lower s)) delay auto_cancel.
Proof. unfold chat_methods_action. by rewrite py_lower_idem. Qed.

(** Every tag of the alias table, in any case, is accepted and resolves to
    its own entry, the tag's current object, of the kind the table was
    built with: the cancel request for the cancel action, otherwise a new,
    not yet entered controller holding that object. *)
Theorem action_table_tag_accepted (table : list (string * SendMessageAction))
    (Htable : str_mapping_reachable table) (entity : InputPeer) (s : string)
    (a0 : SendMessageAction) (delay : Z) (auto_cancel : bool)
    (Hin : In (py_lower s, a0) _str_mapping) :
  exists a, In (py_lower s, a) table /\ set_progress a 0 = set_progress a0 0 /\
    chat_methods_action table entity (ActionStr s) delay auto_cancel =
      Ok (if is_cancel_action a then ReturnCancelRequest entity
          else ReturnController (mkChatAction entity a delay auto_cancel
                                   false None)).
Proof.
  pose proof (reachable_lookup table (py_lower s) Htable) as H.
  assert (Hs0 : str_mapping_lookup (py_lower s) = Some a0).
  { unfold str_mapping_lookup, str_mapping_lookup_in.
    by rewrite (find_key_unique _ _ _ str_mapping_keys_nodup Hin). }
  rewrite Hs0 in H.
  unfold chat_methods_action.
  destruct (str_mapping_lookup_in table (py_lower s)) as [a|] eqn:Ht;
    simpl in H; [|contradiction].
  exists a. split; [|split; [done|by destruct (is_cancel_action a)]].
  unfold str_mapping_lookup_in in Ht.
  destruct (find _ table) as [[k' a']|] eqn:Hf; simpl in Ht; [|discriminate].
  injection Ht as ->. apply find_some in Hf as [Hin' Hk]. simpl in Hk.
  by apply String.eqb_eq in Hk as <-.
Qed.

Lemma action_table_tag_accepted_witness :
  str_mapping_reachable str_mapping_after_document_upload /\
  In (py_lower "File", SendMessageUploadDocumentAction 1) _str_mapping /\
  exists a, In (py_lower "File", a) str_mapping_after_document_upload /\
    set_progress a 0 = set_progress (SendMessageUploadDocumentAction 1) 0 /\
    chat_methods_action str_mapping_after_document_upload (InputPeerChat 5)
      (ActionStr "File") 4 true =
      Ok (if is_cancel_action a then ReturnCancelRequest (InputPeerChat 5)
          else ReturnController (mkChatAction (InputPeerChat 5) a 4 true
                                   false None)).
Proof.
  assert (Hin : In (py_lower "File", SendMessageUploadDocumentAction 1)
                  _str_mapping).
  { vm_compute. repeat (first [left; reflexivity | right]). }
  split; [exact str_mapping_after_document_upload_reachable|].
  split; [exact Hin|].
  exact (action_table_tag_accepted str_mapping_after_document_upload
           str_mapping_after_document_upload_reachable (InputPeerChat 5) "File"
           (SendMessageUploadDocumentAction 1) 4 true Hin).
Defined.

(** A string tag yields the cancel request exactly when it is "cancel" in
    some letter case. *)
Theorem action_cancel_tag_iff (table : list (string * SendMessageAction))
    (Htable : str_mapping_reachable table) (entity : InputPeer) (s : string)
    (delay : Z) (auto_cancel : bool) :
  chat_methods_action table entity (ActionStr s) delay auto_cancel =
    Ok (ReturnCancelRequest entity) <-> py_lower s = "cancel"%string.
Proof.
  pose proof (reachable_lookup table (py_lower s) Htable) as H.
  unfold chat_methods_action.
  destruct (str_mapping_lookup_in table (py_lower s)) as [a|] eqn:Ht;
    destruct (str_mapping_lookup (py_lower s)) as [a0|] eqn:H0;
    try contradiction.
  - split.
    + destruct (is_cancel_action a) eqn:Hc; [|discriminate]. intros _.
      destruct a; try discriminate. destruct a0; try discriminate H.
      unfold str_mapping_lookup, str_mapping_lookup_in in H0.
      destruct (find _ _str_mapping) as [[k a]|] eqn:Hf; simpl in H0;
        [|discriminate].
      injection H0 as ->. apply find_some in Hf as [Hin Hk]. simpl in Hk.
      apply String.eqb_eq in Hk as <-.
      simpl in Hin. intuition congruence.
    + intros Hs. rewrite Hs in H0. vm_compute in H0. injection H0 as <-.
      destruct a; try discriminate H. reflexivity.
  - split; [discriminate|]. intros Hs. rewrite Hs in H0. vm_compute in H0.
    discriminate H0.
Qed.

Lemma action_cancel_tag_iff_witness :
  str_mapping_reachable str_mapping_after_document_upload /\
  (chat_methods_action str_mapping_after_document_upload (InputPeerChat 5)
     (ActionStr "CANCEL") 4 true = Ok (ReturnCancelRequest (InputPeerChat 5))
   <-> py_lower "CANCEL" = "cancel"%string).
Proof.
  split; [exact str_mapping_after_document_upload_reachable|].
  exact (action_cancel_tag_iff str_mapping_after_document_upload
           str_mapping_after_document_upload_reachable (InputPeerChat 5)
           "CANCEL" 4 true).
Defined.

(** *** Extra properties of [_ChatAction.progress] and the task *)








Lemma progress_frame (c c' : ChatAction) (cur tot : Z) :
  progress c cur tot = Ok c' ->
  ca_chat c' = ca_chat c /\ ca_running c' = ca_running c /\
  ca_task c' = ca_task c /\ ca_auto_cancel c' = ca_auto_cancel c.
Proof.
  unfold progress. destruct (has_progress (ca_action c)).
  - destruct (py_round_div cur tot); intros H; inversion H; subst; done.
  - intros H; inversion H; subst; done.
Qed.



(** An upload action with a zero total raises [ZeroDivisionError]. *)
Theorem progress_zero_total_raises (c : ChatAction) (cur : Z)
    (Hp : has_progress (ca_action c) = true) :
  progress c cur 0 = Err ZeroDivisionError.
Proof. unfold progress. by rewrite Hp. Qed.

Lemma progress_zero_total_raises_witness :
  has_progress (ca_action document_action) = true /\
  progress document_action 3 0 = Err ZeroDivisionError.
Proof.
  split; [reflexivity|].
  exact (progress_zero_total_raises document_action 3 eq_refl).
Defined.

(** An action without [progress] is left as it is, whatever the numbers
    (a zero total included). *)
Theorem progress_without_attribute_noop (c : ChatAction) (cur tot : Z)
    (Hp : has_progress (ca_action c) = false) :
  progress c cur tot = Ok c.
Proof. unfold progress. by rewrite Hp. Qed.

Lemma progress_without_attribute_noop_witness :
  let c := chat_action_new (InputPeerChat 5) SendMessageTypingAction 4 true in
  has_progress (ca_action c) = false /\ progress c 3 0 = Ok c.
Proof.
  split; [reflexivity|].
  exact (progress_without_attribute_noop
           (chat_action_new (InputPeerChat 5) SendMessageTypingAction 4 true)
           3 0 eq_refl).
Defined.

(** A progress update made while the loop sleeps is transmitted by the
    loop's next send, which carries the updated action. *)
Theorem progress_sent_by_next_send (c c' : ChatAction) (cur tot : Z)
    (r : result unit)
    (Hrun : ca_running c = true) (Htask : ca_task c = Some TaskAtSleep)
    (Hprog : progress c cur tot = Ok c') :
  update_step c' r =
    (ca_set_task c' (Some TaskAtSend),
     [CallSetTyping (ca_chat c) (ca_action c')]).
Proof.
  destruct (progress_frame c c' cur tot Hprog) as (Hc & Hr & Ht & _).
  unfold update_step. rewrite Ht, Htask, Hr, Hrun, Hc. reflexivity.
Qed.

Lemma progress_sent_by_next_send_witness :
  (ca_running document_sleeping = true /\
   ca_task document_sleeping = Some TaskAtSleep /\
   progress document_sleeping 3 4 =
     Ok (ca_set_action document_sleeping
           (SendMessageUploadDocumentAction 100))) /\
  update_step (ca_set_action document_sleeping
                 (SendMessageUploadDocumentAction 100)) (Ok tt) =
    (ca_set_task (ca_set_action document_sleeping
                    (SendMessageUploadDocumentAction 100)) (Some TaskAtSend),
     [CallSetTyping (ca_chat document_sleeping)
        (ca_action (ca_set_action document_sleeping
                      (SendMessageUploadDocumentAction 100)))]).
Proof.
  assert (Hp : progress document_sleeping 3 4 =
                 Ok (ca_set_action document_sleeping
                       (SendMessageUploadDocumentAction 100)))
    by reflexivity.
  split; [split; [reflexivity|split; [reflexivity|exact Hp]]|].
  exact (progress_sent_by_next_send document_sleeping _ 3 4 (Ok tt)
           eq_refl eq_refl Hp).
Defined.

(** Once [_running] is cleared, the loop sends nothing more: a task at its
    sleep (or not yet started) ends normally without a call. *)
Theorem no_send_after_running_cleared (c : ChatAction) (r : result unit)
    (Hrun : ca_running c = false)
    (Htask : ca_task c = Some TaskAtSleep \/ ca_task c = Some TaskNotStarted) :
  update_step c r = (ca_set_task c (Some (TaskDone (Ok tt))), []).
Proof.
  unfold update_step. destruct Htask as [Ht|Ht]; rewrite Ht, Hrun; reflexivity.
Qed.

Lemma no_send_after_running_cleared_witness :
  (ca_running (ca_set_running document_sleeping false) = false /\
   (ca_task (ca_set_running document_sleeping false) = Some TaskAtSleep \/
    ca_task (ca_set_running document_sleeping false) = Some TaskNotStarted)) /\
  update_step (ca_set_running document_sleeping false) (Ok tt) =
    (ca_set_task (ca_set_running document_sleeping false)
       (Some (TaskDone (Ok tt))), []).
Proof.
  assert (Ht : ca_task (ca_set_running document_sleeping false) =
                 Some TaskAtSleep \/
               ca_task (ca_set_running document_sleeping false) =
                 Some TaskNotStarted) by (left; reflexivity).
  split; [split; [reflexivity|exact Ht]|].
  exact (no_send_after_running_cleared (ca_set_running document_sleeping false)
           (Ok tt) eq_refl Ht).
Defined.

(** While [_running] holds and every await succeeds, each two scheduling
    steps from the sleep issue exactly one send of the same request
    [SetTypingRequest(chat, action)], and the task is back at its sleep. *)
Theorem update_loop_periodic_sends (c : ChatAction) (n : nat)
    (Hrun : ca_running c = true) (Htask : ca_task c = Some TaskAtSleep) :
  let '(c', calls) := update_run c (repeat (Ok tt) (2 * n)) in
  calls = repeat (CallSetTyping (ca_chat c) (ca_action c)) n /\
  ca_task c' = Some TaskAtSleep /\ ca_running c' = true /\
  ca_chat c' = ca_chat c /\ ca_action c' = ca_action c.
Proof.
  revert c Hrun Htask. induction n as [|n IH]; intros c Hrun Htask.
  { simpl. auto. }
  replace (2 * S n)%nat with (S (S (2 * n))) by lia.
  specialize (IH (ca_set_task (ca_set_task c (Some TaskAtSend))
                    (Some TaskAtSleep)) Hrun eq_refl).
  remember (2 * n)%nat as m eqn:Hm. simpl.
  unfold update_step at 1. rewrite Htask, Hrun.
  unfold update_step at 1. simpl.
  destruct (update_run _ (repeat (Ok tt) m)) as [c2 k2].
  destruct IH as (-> & H2 & H3 & H4 & H5). simpl in *.
  conj_split; congruence.
Qed.

Lemma update_loop_periodic_sends_witness :
  (ca_running document_sleeping = true /\
   ca_task document_sleeping = Some TaskAtSleep) /\
  let '(c', calls) := update_run document_sleeping (repeat (Ok tt) (2 * 3)) in
  calls = repeat (CallSetTyping (ca_chat document_sleeping)
                    (ca_action document_sleeping)) 3 /\
  ca_task c' = Some TaskAtSleep /\ ca_running c' = true /\
  ca_chat c' = ca_chat document_sleeping /\
  ca_action c' = ca_action document_sleeping.
Proof.
  split; [split; reflexivity|].
  exact (update_loop_periodic_sends document_sleeping 3 eq_refl eq_refl).
Defined.

(** The first step of the task created by [__aenter__] sends the action
    to the resolved chat. *)
Theorem aenter_first_step_sends (c : ChatAction) (chat : InputPeer)
    (r : result unit) :
  update_step (chat_action_aenter c chat) r =
    (ca_set_task (chat_action_aenter c chat) (Some TaskAtSend),
     [CallSetTyping chat (ca_action c)]).
Proof. reflexivity. Qed.

(** When the loop ended with an error other than a connection error or a
    cancellation, exit re-raises it without any call and keeps the task. *)
Theorem aexit_reraises_loop_error (c : ChatAction) (e : exn)
    (cancel_send : result unit)
    (Htask : ca_task c = Some (TaskDone (Err e)))
    (He : e <> CancelledError) :
  chat_action_aexit c cancel_send = (ca_set_running c false, [], Err e).
Proof.
  unfold chat_action_aexit. simpl. rewrite Htask. simpl.
  destruct e; try reflexivity. contradiction.
Qed.

Lemma aexit_reraises_loop_error_witness :
  let c := ca_set_task document_action (Some (TaskDone (Err RPCError))) in
  (ca_task c = Some (TaskDone (Err RPCError)) /\ RPCError <> CancelledError) /\
  chat_action_aexit c (Ok tt) = (ca_set_running c false, [], Err RPCError).
Proof.
  split; [split; [reflexivity|discriminate]|].
  exact (aexit_reraises_loop_error
           (ca_set_task document_action (Some (TaskDone (Err RPCError))))
           RPCError (Ok tt) eq_refl ltac:(discriminate)).
Defined.

(** Exit before the task ever ran: the task is cancelled before its first
    line, so no cancel action is sent even with auto-cancel set, and exit
    returns normally with the task cleared. *)
Theorem aexit_before_first_run (c : ChatAction) (cancel_send : result unit)
    (Htask : ca_task c = Some TaskNotStarted) :
  chat_action_aexit c cancel_send =
    (ca_set_task (ca_set_running c false) None, [], Ok tt).
Proof. unfold chat_action_aexit. simpl. by rewrite Htask. Qed.

Lemma aexit_before_first_run_witness :
  ca_task (chat_action_aenter document_action (InputPeerChat 5)) =
    Some TaskNotStarted /\
  chat_action_aexit (chat_action_aenter document_action (InputPeerChat 5))
    (Ok tt) =
    (ca_set_task (ca_set_running
                    (chat_action_aenter document_action (InputPeerChat 5))
                    false) None, [], Ok tt).
Proof.
  split; [reflexivity|].
  exact (aexit_before_first_run
           (chat_action_aenter document_action (InputPeerChat 5)) (Ok tt)
           eq_refl).
Defined.

Lemma aexit_ok_cleared (c c' : ChatAction) calls cancel_send u :
  chat_action_aexit c cancel_send = (c', calls, Ok u) ->
  ca_task c' = None /\ ca_running c' = false.
Proof.
  unfold chat_action_aexit. simpl.
  destruct (ca_task c) as [t|] eqn:Ht; [|intros H; inversion H; subst; simpl; done].
  destruct (task_cancel_and_await _ cancel_send t) as [k [v|e]].
  - intros H; inversion H; subst; done.
  - destruct e; intros H; inversion H; subst; done.
Qed.

(** Exit is idempotent once it has returned normally: a second exit finds
    no task, issues no call and returns normally, leaving the controller
    as it is. *)
Theorem aexit_idempotent (c c' : ChatAction) (calls : list Call)
    (cancel_send cancel_send' : result unit) (u : unit)
    (H : chat_action_aexit c cancel_send = (c', calls, Ok u)) :
  chat_action_aexit c' cancel_send' = (c', [], Ok tt).
Proof.
  destruct (aexit_ok_cleared c c' calls cancel_send u H) as [Ht Hr].
  destruct c' as [ch a d ac run t]; simpl in *; subst.
  reflexivity.
Qed.

Lemma aexit_idempotent_witness :
  chat_action_aexit document_sleeping (Ok tt) =
    (ca_set_task (ca_set_running document_sleeping false) None,
     [CallSetTyping (InputPeerChat 5) SendMessageCancelAction], Ok tt) /\
  chat_action_aexit (ca_set_task (ca_set_running document_sleeping false) None)
    (Err RPCError) =
    (ca_set_task (ca_set_running document_sleeping false) None, [], Ok tt).
Proof.
  assert (H : chat_action_aexit document_sleeping (Ok tt) =
                (ca_set_task (ca_set_running document_sleeping false) None,
                 [CallSetTyping (InputPeerChat 5) SendMessageCancelAction],
                 Ok tt)) by reflexivity.
  split; [exact H|].
  exact (aexit_idempotent document_sleeping _ _ (Ok tt) (Err RPCError) tt H).
Defined.
